(** * generate_ascii.py: image to ASCII art, plain text or SVG tspan rows

    A shallow embedding of [src/generate_ascii.py] and the properties its
    specification states about it.

    - [PyFloat]  : the binary64 arithmetic behind [int((v / 255) * (n - 1))],
                   on the IEEE 754 specification of the standard library;
    - [PyStr]    : the [str] operations the script uses (indexing, [replace],
                   [join], decimal formatting of an [int]);
    - [AsciiArt] : [image_to_ascii], [format_for_svg] and [main], with the
                   image library as a section variable and the two output
                   streams as explicit state. *)

From Stdlib Require Import ZArith List String Ascii Bool Lia DecimalString.
From Stdlib Require Import Floats.SpecFloat.
From Stdlib Require DecimalPos DecimalZ.
Import ListNotations.
Local Open Scope string_scope.
Local Open Scope Z_scope.

(** ** Exceptions

    Every exception the script can meet is caught by one handler that only
    formats it, so an exception is modelled by its message. *)

Inductive result (A : Type) : Type :=
| Ok (a : A)
| Raise (msg : string).
Arguments Ok {A} a.
Arguments Raise {A} msg.

Definition bind {A B : Type} (r : result A) (k : A -> result B) : result B :=
  match r with
  | Ok a => k a
  | Raise msg => Raise msg
  end.

Notation "x <- r ;; k" := (bind r (fun x => k))
  (at level 61, r at next level, right associativity).

(** ** Python floats *)

Module PyFloat.

Definition prec : Z := 53.
Definition emax : Z := 1024.

Definition float : Type := spec_float.

(** [float(z)]: the nearest double, ties to even. *)
Definition of_int (z : Z) : float := binary_normalize prec emax z 0 false.

(** [a / b] on two [int]s that are exact as doubles. *)
Definition truediv (a b : Z) : result float :=
  if b =? 0 then Raise "division by zero"
  else Ok (SFdiv prec emax (of_int a) (of_int b)).

(** [x * k] with [x] a float and [k] an [int]. *)
Definition mul_int (x : float) (k : Z) : float :=
  SFmul prec emax x (of_int k).

(** [int(x)]: truncation toward zero. *)
Definition to_int (x : float) : result Z :=
  match x with
  | S754_zero _ => Ok 0
  | S754_finite s m e => Ok (cond_Zopp s (Z.shiftl (Zpos m) e))
  | S754_infinity _ => Raise "cannot convert float infinity to integer"
  | S754_nan => Raise "cannot convert float NaN to integer"
  end.

End PyFloat.

(** ** Python strings *)

Module PyStr.

Definition len (s : string) : Z := Z.of_nat (String.length s).

Definition newline : string := String "010"%char EmptyString.
Definition dquote : string := String "034"%char EmptyString.

(** [s[i]], negative indices counting from the end. *)
Definition getitem (s : string) (i : Z) : result ascii :=
  let i' := if i <? 0 then i + len s else i in
  if (0 <=? i') && (i' <? len s) then
    match String.get (Z.to_nat i') s with
    | Some c => Ok c
    | None => Raise "string index out of range"
    end
  else Raise "string index out of range".

(** [s.replace(old, new)] for a non-empty [old]: leftmost occurrences,
    not overlapping; [skip] counts the characters of a match still to be
    dropped. *)
Fixpoint replace_from (old new : string) (skip : nat) (s : string) : string :=
  match s with
  | EmptyString => EmptyString
  | String c s' =>
      match skip with
      | S k => replace_from old new k s'
      | O =>
          if String.prefix old s
          then new ++ replace_from old new (String.length old - 1) s'
          else String c (replace_from old new 0 s')
      end
  end.

Fixpoint intersperse (new s : string) : string :=
  match s with
  | EmptyString => new
  | String c s' => new ++ String c (intersperse new s')
  end.

Definition replace (old new s : string) : string :=
  match old with
  | EmptyString => intersperse new s
  | _ => replace_from old new 0 s
  end.

(** [sep.join(l)] *)
Definition join (sep : string) (l : list string) : string :=
  String.concat sep l.

(** [str(z)], as an f-string formats an [int]. *)
Definition of_int (z : Z) : string := NilZero.string_of_int (Z.to_int z).

End PyStr.

(** ** The script *)

Module AsciiArt.

(** The two output streams of the process. *)
Record world : Type := { stdout : string; stderr : string }.

Definition empty_world : world := {| stdout := ""; stderr := "" |}.

(** [print(s)] and [print(s, file=sys.stderr)]: the text and a newline. *)
Definition print (s : string) (w : world) : world :=
  {| stdout := stdout w ++ s ++ PyStr.newline; stderr := stderr w |}.

Definition print_err (s : string) (w : world) : world :=
  {| stdout := stdout w; stderr := stderr w ++ s ++ PyStr.newline |}.

(** A call either returns, or ends the process through [sys.exit]. *)
Inductive outcome (A : Type) : Type :=
| Done (a : A) (w : world)
| Exited (status : Z) (w : world).
Arguments Done {A} a w.
Arguments Exited {A} status w.

(** [range(n)] *)
Definition range (n : Z) : list Z := map Z.of_nat (seq 0 (Z.to_nat n)).

(** A [for] loop whose body may raise. *)
Fixpoint for_each {S : Type} (xs : list Z) (body : Z -> S -> result S) (s : S)
  : result S :=
  match xs with
  | [] => Ok s
  | x :: xs' => s' <- body x s ;; for_each xs' body s'
  end.

(** [pixels[k]] on the flat sample sequence of the image. *)
Definition pixel_at (pixels : list Z) (k : Z) : result Z :=
  if k <? 0 then Raise "image index out of range"
  else match nth_error pixels (Z.to_nat k) with
       | Some v => Ok v
       | None => Raise "image index out of range"
       end.

(** Line 39: [int((pixel_value / 255) * (len(chars) - 1))]. *)
Definition char_index (pixel_value : Z) (chars : string) : result Z :=
  q <- PyFloat.truediv pixel_value 255 ;;
  PyFloat.to_int (PyFloat.mul_int q (PyStr.len chars - 1)).

(** Lines 39-40: the character of one sample, [chars[char_index]]. *)
Definition select_char (pixel_value : Z) (chars : string) : result ascii :=
  idx <- char_index pixel_value chars ;;
  PyStr.getitem chars idx.

(** Lines 37-40: one step of the inner loop. *)
Definition pixel_step (pixels : list Z) (width : Z) (chars : string)
           (i j : Z) (line : string) : result string :=
  pixel_value <- pixel_at pixels (i * width + j) ;;
  c <- select_char pixel_value chars ;;
  Ok (line ++ String c EmptyString).

(** Lines 35-41: one step of the outer loop. *)
Definition row_step (pixels : list Z) (width : Z) (chars : string)
           (i : Z) (ascii_lines : list string) : result (list string) :=
  line <- for_each (range width) (pixel_step pixels width chars i) "" ;;
  Ok (ascii_lines ++ [line])%list.

(** Lines 31-43: the conversion of the sample sequence. *)
Definition to_ascii_lines (pixels : list Z) (width height : Z) (chars : string)
  : result (list string) :=
  for_each (range height) (row_step pixels width chars) [].

(** Line 66: the three replacements, in this order. *)
Definition escape (line : string) : string :=
  PyStr.replace ">" "&gt;"
    (PyStr.replace "<" "&lt;" (PyStr.replace "&" "&amp;" line)).

(** Line 67: the f-string of one element. *)
Definition tspan (x y : Z) (escaped_line : string) : string :=
  "<tspan x=" ++ PyStr.dquote ++ PyStr.of_int x ++ PyStr.dquote
    ++ " y=" ++ PyStr.dquote ++ PyStr.of_int y ++ PyStr.dquote
    ++ ">" ++ escaped_line ++ "</tspan>".

(** Lines 62-68: the loop over [enumerate(ascii_lines)]. *)
Fixpoint svg_loop (x y_start line_height : Z) (i : Z) (ascii_lines : list string)
         (svg_lines : list string) : list string :=
  match ascii_lines with
  | [] => svg_lines
  | line :: rest =>
      let y := y_start + i * line_height in
      let escaped_line := escape line in
      svg_loop x y_start line_height (i + 1) rest
               (svg_lines ++ [tspan x y escaped_line])%list
  end.

(** Lines 49-69. *)
Definition format_for_svg (ascii_lines : list string) (x y_start line_height : Z)
  : string :=
  PyStr.join PyStr.newline (svg_loop x y_start line_height 0 ascii_lines []).

(** Lines 93-94. *)
Fixpoint print_lines (ascii_lines : list string) (w : world) : world :=
  match ascii_lines with
  | [] => w
  | line :: rest => print_lines rest (print line w)
  end.

Inductive format : Type := text | svg.

Record args : Type := {
  image_path : string;
  width : Z;
  height : Z;
  chars : string;
  fmt : format;
  x : Z;
  y_start : Z;
  line_height : Z
}.

Definition default_chars : string := "@%#*+=-:. ".

Section Script.

(** Lines 26-31: [Image.open], [convert('L')], [resize] and [getdata],
    the work of the image library: the flat sequence of samples, or the
    exception it raised. *)
Variable load : string -> Z -> Z -> result (list Z).

Definition image_to_ascii_try (image_path : string) (width height : Z)
           (chars : string) : result (list string) :=
  pixels <- load image_path width height ;;
  to_ascii_lines pixels width height chars.

(** Lines 24-47. *)
Definition image_to_ascii (image_path : string) (width height : Z)
           (chars : string) (w : world) : outcome (list string) :=
  match image_to_ascii_try image_path width height chars with
  | Ok ascii_lines => Done ascii_lines w
  | Raise e => Exited 1 (print_err ("Error processing image: " ++ e) w)
  end.

(** Lines 85-94. *)
Definition main (a : args) (w : world) : outcome unit :=
  match image_to_ascii (image_path a) (width a) (height a) (chars a) w with
  | Exited status w' => Exited status w'
  | Done ascii_lines w' =>
      match fmt a with
      | svg =>
          let svg_output :=
            format_for_svg ascii_lines (x a) (y_start a) (line_height a) in
          Done tt (print svg_output w')
      | text => Done tt (print_lines ascii_lines w')
      end
  end.

(** The status the process ends with. *)
Definition exit_status {A : Type} (o : outcome A) : Z :=
  match o with
  | Done _ _ => 0
  | Exited status _ => status
  end.

Definition final_world {A : Type} (o : outcome A) : world :=
  match o with
  | Done _ w => w
  | Exited _ w => w
  end.

End Script.

End AsciiArt.

(** ** Rounding to nearest, ties to even, on integers

    [rne M p] is the integer nearest to [M / 2^p]; the product of two
    mantissas is rounded to 53 bits by it. *)

Definition rne (M p : Z) : Z :=
  let q := M / 2 ^ p in
  let r := M mod 2 ^ p in
  match 2 * r ?= 2 ^ p with
  | Lt => q
  | Eq => if Z.even q then q else q + 1
  | Gt => q + 1
  end.

(** ** The 255 quotients [v / 255] *)

Module Quotients.

Import PyFloat.

(** The double [v / 255]. *)
Definition quotient (v : Z) : float := SFdiv prec emax (of_int v) (of_int 255).

(** [x] is a positive double with a 53-digit mantissa, at most one. *)
Definition unit_quotient (x : float) : bool :=
  match x with
  | S754_finite false m e =>
      (2 ^ 52 <=? Zpos m) && (Zpos m <? 2 ^ 53)
      && (-60 <=? e) && (e <=? -52) && (Zpos m <=? 2 ^ (- e))
  | _ => false
  end.

(** [x <= y] on two such doubles. *)
Definition quotient_le (x y : float) : bool :=
  match x, y with
  | S754_finite false m1 e1, S754_finite false m2 e2 =>
      Z.shiftl (Zpos m1) (- e2) <=? Z.shiftl (Zpos m2) (- e1)
  | _, _ => false
  end.

Definition samples : list Z := map Z.of_nat (seq 1 255).

Definition quotient_table : list (Z * float) :=
  Eval vm_compute in map (fun v => (v, quotient v)) samples.

End Quotients.

(** ** Escaping in one pass

    What the specification describes: every character is looked at once,
    and the three reserved ones are replaced by their entities. *)

Definition escape_char (c : ascii) : string :=
  if Ascii.eqb c "&" then "&amp;"
  else if Ascii.eqb c "<" then "&lt;"
  else if Ascii.eqb c ">" then "&gt;"
  else String c EmptyString.

Fixpoint escape_once (line : string) : string :=
  match line with
  | EmptyString => EmptyString
  | String c rest => escape_char c ++ escape_once rest
  end.

(** ** The elements of the SVG fragment

    Row [i] of the art becomes the element at [y_start + i * line_height];
    [elements_from] lists them from row [i] on. *)

Fixpoint elements_from (x y_start line_height : Z) (i : Z) (art : list string)
  : list string :=
  match art with
  | [] => []
  | row :: rest =>
      AsciiArt.tspan x (y_start + i * line_height) (AsciiArt.escape row)
        :: elements_from x y_start line_height (i + 1) rest
  end.

(** The number of occurrences of a character in a text; every tspan element
    opens and closes with one [<]. *)
Fixpoint count_char (c : ascii) (s : string) : nat :=
  match s with
  | EmptyString => 0
  | String a rest => (if Ascii.eqb a c then 1 else 0) + count_char c rest
  end.

(** ** The text of the rows

    Every row followed by a newline, as [print] writes them. *)
Fixpoint lines_text (art : list string) : string :=
  match art with
  | [] => ""
  | row :: rest => row ++ PyStr.newline ++ lines_text rest
  end.


(** ** The index of the specification

    [floor (v / 255 * (n - 1))] over the rationals. *)
Definition exact_index (v n : Z) : Z := (v * (n - 1)) / 255.

(** A palette of 52 characters: the two alphabets. *)
Definition upper_lower : string :=
  "ABCDEFGHIJKLMNOPQRSTUVWXYZabcdefghijklmnopqrstuvwxyz".

(** ** What the script expects of its inputs *)

(** A palette a machine can hold: non-empty, and [len(chars) - 1] exact as a
    double. *)
Definition palette_ok (chars : string) : Prop :=
  1 <= PyStr.len chars <= 2 ^ 53.

(** A grid as the image library hands it over after [resize((width, height))]
    in mode [L]: [width * height] samples, each in [0, 255]. *)
Definition grid_ok (pixels : list Z) (width height : Z) : Prop :=
  0 <= width /\ 0 <= height
  /\ Z.of_nat (List.length pixels) = width * height
  /\ Forall (fun v => 0 <= v <= 255) pixels.

(** ** How close the quotients are

    For [v < 255] the double [v / 255] is below one by more than its
    rounding error, and within half a unit in the last place of the
    rational [v / 255]. *)

Module QuotientChecks.

Import PyFloat.

Definition close_quotient (vx : Z * float) : bool :=
  match snd vx with
  | S754_finite false m e =>
      (e <=? -53)
      && (2 * Z.abs (255 * Zpos m - Z.shiftl (fst vx) (- e)) <=? 255)
      && (256 * Zpos m <=? 255 * Z.shiftl 1 (- e))
  | _ => false
  end.

End QuotientChecks.

(** ** The cells of the art

    The character at column [j] of [line], row [i], is the one the sample
    [pixels[i * width + j]] selects. *)
Definition cell_ok (pixels : list Z) (width : Z) (chars : string)
           (i : Z) (line : string) (j : nat) : Prop :=
  exists v c,
    nth_error pixels (Z.to_nat (i * width + Z.of_nat j)) = Some v
    /\ AsciiArt.select_char v chars = Ok c
    /\ String.get j line = Some c.

(** The number of reserved characters of a row. *)
Definition reserved (row : string) : nat :=
  (count_char "&" row + count_char "<" row + count_char ">" row)%nat.

(** * Properties *)

(** ** The rounding of [SpecFloat], arithmetically *)

Module FloatFacts.

Import PyFloat Quotients.

Lemma digits2_pos_bounds (m : positive) :
  2 ^ (Zpos (digits2_pos m) - 1) <= Zpos m < 2 ^ Zpos (digits2_pos m).
Proof.
  induction m as [m IH | m IH | ]; cbn [digits2_pos].
  - rewrite Pos2Z.inj_succ.
    replace (Z.succ (Zpos (digits2_pos m)) - 1) with (Z.succ (Zpos (digits2_pos m) - 1)) by lia.
    rewrite !Z.pow_succ_r by lia. lia.
  - rewrite Pos2Z.inj_succ.
    replace (Z.succ (Zpos (digits2_pos m)) - 1) with (Z.succ (Zpos (digits2_pos m) - 1)) by lia.
    rewrite !Z.pow_succ_r by lia. lia.
  - cbn. lia.
Qed.

(** The number of digits is determined by the binade. *)
Lemma digits2_pos_unique (m : positive) (d : Z) :
  2 ^ (d - 1) <= Zpos m < 2 ^ d -> Zpos (digits2_pos m) = d.
Proof.
  intros [Hlo Hhi].
  pose proof (digits2_pos_bounds m) as [Hlo' Hhi'].
  assert (0 < d).
  { destruct (Z.le_gt_cases d 0) as [Hd|Hd]; [|exact Hd].
    assert (2 ^ d <= 2 ^ 0) by (apply Z.pow_le_mono_r; lia).
    cbn in *. lia. }
  assert (d - 1 < Zpos (digits2_pos m)).
  { apply (Z.pow_lt_mono_r_iff 2); lia. }
  assert (Zpos (digits2_pos m) - 1 < d).
  { apply (Z.pow_lt_mono_r_iff 2); lia. }
  lia.
Qed.

Lemma iter_pos_nat {A : Type} (f : A -> A) (p : positive) (a : A) :
  iter_pos f p a = Nat.iter (Pos.to_nat p) f a.
Proof.
  revert a. induction p as [p IH | p IH | ]; intros a; cbn [iter_pos].
  - rewrite !IH, Pos2Nat.inj_xI.
    replace (S (2 * Pos.to_nat p))%nat with (Pos.to_nat p + (Pos.to_nat p + 1))%nat by lia.
    rewrite !Nat.iter_add. reflexivity.
  - rewrite !IH, Pos2Nat.inj_xO.
    replace (2 * Pos.to_nat p)%nat with (Pos.to_nat p + Pos.to_nat p)%nat by lia.
    rewrite Nat.iter_add. reflexivity.
  - reflexivity.
Qed.

Lemma shr_1_nonneg (m : Z) (r s : bool) :
  0 <= m ->
  shr_1 (Build_shr_record m r s) = Build_shr_record (Z.div2 m) (Z.odd m) (r || s).
Proof.
  intros Hm. destruct m as [ | [p | p | ] | p ]; try reflexivity. lia.
Qed.

(** [n + 1] one-bit shifts of [M]: the quotient, the last bit shifted out
    and whether any bit before it was set. *)
Lemma shr_iter (M : Z) (n : nat) :
  0 <= M ->
  Nat.iter (S n) shr_1 (Build_shr_record M false false)
  = Build_shr_record (M / 2 ^ Z.of_nat (S n))
                     (Z.odd (M / 2 ^ Z.of_nat n))
                     (negb (M mod 2 ^ Z.of_nat n =? 0)).
Proof.
  intros HM. induction n as [ | n IH].
  - cbn [Nat.iter]. rewrite shr_1_nonneg by exact HM.
    change (2 ^ Z.of_nat 0) with 1. change (2 ^ Z.of_nat 1) with 2.
    rewrite Z.div_1_r, Z.mod_1_r, Z.div2_div. reflexivity.
  - rewrite Nat.iter_succ, IH.
    assert (Hp : 0 < 2 ^ Z.of_nat n) by (apply Z.pow_pos_nonneg; lia).
    assert (HSn : 2 ^ Z.of_nat (S n) = 2 * 2 ^ Z.of_nat n).
    { rewrite Nat2Z.inj_succ, Z.pow_succ_r by lia. reflexivity. }
    assert (HSSn : 2 ^ Z.of_nat (S (S n)) = 2 ^ Z.of_nat (S n) * 2).
    { rewrite (Nat2Z.inj_succ (S n)), Z.pow_succ_r by lia. lia. }
    rewrite shr_1_nonneg by (apply Z.div_pos; lia).
    rewrite Z.div2_div, HSSn, <- Z.div_div by lia.
    f_equal.
    (* the sticky bit *)
    replace (2 * 2 ^ Z.of_nat n) with (2 ^ Z.of_nat n * 2) in HSn by lia.
    rewrite HSn, Z.rem_mul_r by lia.
    pose proof (Z.mod_pos_bound M (2 ^ Z.of_nat n) Hp) as Hb.
    pose proof (Z.mod_pos_bound (M / 2 ^ Z.of_nat n) 2 ltac:(lia)) as Hb2.
    rewrite Zodd_mod.
    destruct (Z.eqb_spec ((M / 2 ^ Z.of_nat n) mod 2) 1) as [E1 | E1];
      destruct (Z.eqb_spec (M mod 2 ^ Z.of_nat n) 0) as [E2 | E2];
      cbn [negb orb];
      match goal with
      | |- _ = negb (?a =? 0) => destruct (Z.eqb_spec a 0) as [E3 | E3]
      end; cbn [negb]; try reflexivity; exfalso; nia.
Qed.

(** Rounding the shifted record is [rne]. *)
Lemma round_shr_iter (M : Z) (p : positive) :
  0 <= M ->
  let mrs := iter_pos shr_1 p (Build_shr_record M false false) in
  round_nearest_even (shr_m mrs) (loc_of_shr_record mrs) = rne M (Zpos p).
Proof.
  intros HM. cbv zeta. rewrite iter_pos_nat.
  destruct (Pos2Nat.is_succ p) as [n Hn]. rewrite Hn.
  rewrite shr_iter by exact HM.
  assert (Hpn : Zpos p = Z.of_nat (S n)) by lia.
  rewrite Hpn. clear Hpn Hn p.
  assert (Hp : 0 < 2 ^ Z.of_nat n) by (apply Z.pow_pos_nonneg; lia).
  assert (HSn : 2 ^ Z.of_nat (S n) = 2 ^ Z.of_nat n * 2).
  { rewrite Nat2Z.inj_succ, Z.pow_succ_r by lia. lia. }
  unfold rne. rewrite HSn, Z.rem_mul_r by lia.
  pose proof (Z.mod_pos_bound M (2 ^ Z.of_nat n) Hp) as Hb.
  pose proof (Z.mod_pos_bound (M / 2 ^ Z.of_nat n) 2 ltac:(lia)) as Hb2.
  cbn [shr_m]. rewrite Zodd_mod.
  set (b := (M / 2 ^ Z.of_nat n) mod 2) in *.
  set (low := M mod 2 ^ Z.of_nat n) in *.
  set (q := M / (2 ^ Z.of_nat n * 2)).
  destruct (Z.eqb_spec b 1) as [E1 | E1];
    destruct (Z.eqb_spec low 0) as [E2 | E2];
    cbn [negb loc_of_shr_record round_nearest_even];
    destruct (Z.compare_spec (2 * (low + 2 ^ Z.of_nat n * b)) (2 ^ Z.of_nat n * 2));
    try reflexivity; exfalso; nia.
Qed.

(** *** Arithmetic of [rne] *)

Lemma rne_cases (M p : Z) :
  rne M p = M / 2 ^ p \/ rne M p = M / 2 ^ p + 1.
Proof.
  unfold rne. destruct (_ ?= _); [destruct (Z.even _) | | ]; auto.
Qed.

Lemma rne_le_int (M p c : Z) :
  0 <= p -> M <= c * 2 ^ p -> rne M p <= c.
Proof.
  intros Hp HM.
  assert (H2 : 0 < 2 ^ p) by (apply Z.pow_pos_nonneg; lia).
  pose proof (Z.div_mod M (2 ^ p) ltac:(lia)) as Hdm.
  pose proof (Z.mod_pos_bound M (2 ^ p) H2) as Hb.
  unfold rne.
  destruct (Z.compare_spec (2 * (M mod 2 ^ p)) (2 ^ p)); [destruct (Z.even _) | | ]; nia.
Qed.

Lemma rne_ge_int (M p c : Z) :
  0 <= p -> c * 2 ^ p <= M -> c <= rne M p.
Proof.
  intros Hp HM.
  assert (H2 : 0 < 2 ^ p) by (apply Z.pow_pos_nonneg; lia).
  pose proof (Z.div_mod M (2 ^ p) ltac:(lia)) as Hdm.
  pose proof (Z.mod_pos_bound M (2 ^ p) H2) as Hb.
  assert (c <= M / 2 ^ p) by (apply Z.div_le_lower_bound; lia).
  destruct (rne_cases M p); lia.
Qed.

Lemma rne_exact (c p : Z) : 0 <= p -> rne (c * 2 ^ p) p = c.
Proof.
  intros Hp. apply Z.le_antisymm; [apply rne_le_int | apply rne_ge_int]; lia.
Qed.

Lemma rne_mono (M1 M2 p : Z) :
  0 <= p -> M1 <= M2 -> rne M1 p <= rne M2 p.
Proof.
  intros Hp HM.
  assert (H2 : 0 < 2 ^ p) by (apply Z.pow_pos_nonneg; lia).
  pose proof (Z.div_mod M1 (2 ^ p) ltac:(lia)) as Hdm1.
  pose proof (Z.mod_pos_bound M1 (2 ^ p) H2) as Hb1.
  pose proof (Z.div_mod M2 (2 ^ p) ltac:(lia)) as Hdm2.
  pose proof (Z.mod_pos_bound M2 (2 ^ p) H2) as Hb2.
  assert (Hq : M1 / 2 ^ p <= M2 / 2 ^ p) by (apply Z.div_le_mono; lia).
  destruct (Z.eq_dec (M1 / 2 ^ p) (M2 / 2 ^ p)) as [E | E].
  - unfold rne. rewrite E in *.
    destruct (Z.compare_spec (2 * (M1 mod 2 ^ p)) (2 ^ p));
      destruct (Z.compare_spec (2 * (M2 mod 2 ^ p)) (2 ^ p));
      destruct (Z.even (M2 / 2 ^ p)); lia.
  - destruct (rne_cases M1 p), (rne_cases M2 p); lia.
Qed.

Lemma rne_scale (M p c : Z) :
  0 <= p -> 0 <= c -> rne (M * 2 ^ c) (p + c) = rne M p.
Proof.
  intros Hp Hc.
  assert (H2 : 0 < 2 ^ p) by (apply Z.pow_pos_nonneg; lia).
  assert (Hc2 : 0 < 2 ^ c) by (apply Z.pow_pos_nonneg; lia).
  unfold rne. rewrite Z.pow_add_r by lia.
  rewrite Z.div_mul_cancel_r by lia.
  rewrite Zmult_mod_distr_r.
  replace (2 * (M mod 2 ^ p * 2 ^ c)) with (2 * (M mod 2 ^ p) * 2 ^ c) by lia.
  rewrite <- Zmult_compare_compat_r by lia. reflexivity.
Qed.

(** *** Rounding a long mantissa to 53 bits

    A positive [M * 2^E] whose mantissa has [53 + p] digits, [p > 0], is
    rounded to [rne M p * 2^(E + p)], renormalised when the rounding
    carries into a 54th bit. *)
Lemma binary_round_aux_long (sx : bool) (M : positive) (E p : Z) :
  p = Zpos (digits2_pos M) - 53 ->
  0 < p ->
  -1074 <= E + p <= 970 ->
  binary_round_aux prec emax sx (Zpos M) E loc_Exact
  = if rne (Zpos M) p =? 2 ^ 53
    then S754_finite sx (Z.to_pos (2 ^ 52)) (E + p + 1)
    else S754_finite sx (Z.to_pos (rne (Zpos M) p)) (E + p).
Proof.
  intros Hp Hpos HE.
  pose proof (digits2_pos_bounds M) as [Hlo Hhi].
  assert (Hd : Zpos (digits2_pos M) = 53 + p) by lia.
  rewrite Hd in Hlo, Hhi.
  replace (53 + p - 1) with (52 + p) in Hlo by lia.
  rewrite Z.pow_add_r in Hlo, Hhi by lia.
  assert (Hge : 2 ^ 52 <= rne (Zpos M) p) by (apply rne_ge_int; lia).
  assert (Hle : rne (Zpos M) p <= 2 ^ 53) by (apply rne_le_int; lia).
  unfold binary_round_aux, shr_fexp.
  assert (Hs1 : fexp prec emax (Zdigits2 (Zpos M) + E) - E = p).
  { unfold fexp, emin, prec, emax. cbn [Zdigits2]. lia. }
  rewrite Hs1. cbn [shr_record_of_loc].
  destruct p as [ | p' | p']; try lia.
  cbn [shr].
  rewrite (round_shr_iter (Zpos M) p') by lia.
  set (m2 := rne (Zpos M) (Zpos p')) in *.
  destruct (Z.eqb_spec m2 (2 ^ 53)) as [Hc | Hc].
  - rewrite Hc.
    replace (fexp prec emax (Zdigits2 (2 ^ 53) + (E + Zpos p')) - (E + Zpos p')) with 1
      by (unfold fexp, emin, prec, emax; cbn [Zdigits2]; change (Zdigits2 (2 ^ 53)) with 54; lia).
    cbn [shr iter_pos]. change (2 ^ 53) with (Zpos (xO (Z.to_pos (2 ^ 52)))).
    cbn [shr_1 shr_m orb].
    replace (E + Zpos p' + 1 <=? emax - prec) with true
      by (symmetry; apply Z.leb_le; unfold emax, prec; lia).
    reflexivity.
  - destruct m2 as [ | m2' | m2'] eqn:Em2; try (cbn in Hge; lia).
    assert (Hdig : Zpos (digits2_pos m2') = 53).
    { apply digits2_pos_unique. change (53 - 1) with 52. lia. }
    replace (fexp prec emax (Zdigits2 (Zpos m2') + (E + Zpos p')) - (E + Zpos p')) with 0
      by (unfold fexp, emin, prec, emax; cbn [Zdigits2]; rewrite Hdig; lia).
    cbn [shr shr_m].
    replace (E + Zpos p' <=? emax - prec) with true
      by (symmetry; apply Z.leb_le; unfold emax, prec; lia).
    cbn [Z.to_pos]. reflexivity.
Qed.

(** A 53-digit mantissa is not rounded. *)
Lemma binary_round_aux_exact (sx : bool) (M : positive) (E : Z) :
  Zpos (digits2_pos M) = 53 ->
  -1074 <= E <= 971 ->
  binary_round_aux prec emax sx (Zpos M) E loc_Exact = S754_finite sx M E.
Proof.
  intros Hd HE. unfold binary_round_aux, shr_fexp.
  replace (fexp prec emax (Zdigits2 (Zpos M) + E) - E) with 0
    by (unfold fexp, emin, prec, emax; cbn [Zdigits2]; rewrite Hd; lia).
  cbn [shr shr_record_of_loc shr_m loc_of_shr_record round_nearest_even].
  replace (fexp prec emax (Zdigits2 (Zpos M) + E) - E) with 0
    by (unfold fexp, emin, prec, emax; cbn [Zdigits2]; rewrite Hd; lia).
  cbn [shr shr_record_of_loc shr_m].
  replace (E <=? emax - prec) with true
    by (symmetry; apply Z.leb_le; unfold emax, prec; lia).
  reflexivity.
Qed.

Lemma iter_xO_spec (m c : positive) :
  Zpos (Pos.iter xO m c) = Zpos m * 2 ^ Zpos c.
Proof.
  induction c as [ | c IH] using Pos.peano_ind.
  - cbn. lia.
  - rewrite Pos.iter_succ, Pos2Z.inj_xO, IH, Pos2Z.inj_succ, Z.pow_succ_r by lia. lia.
Qed.

(** *** [float(k)] is exact below [2^53] *)
Lemma of_int_pos (k : Z) :
  0 < k < 2 ^ 53 ->
  exists mk ek,
    of_int k = S754_finite false mk ek
    /\ 2 ^ 52 <= Zpos mk < 2 ^ 53
    /\ -52 <= ek <= 0
    /\ Zpos mk = k * 2 ^ (- ek).
Proof.
  intros Hk. destruct k as [ | kp | kp]; try lia.
  pose proof (digits2_pos_bounds kp) as [Hlo Hhi].
  set (d := Zpos (digits2_pos kp)) in *.
  assert (Hd : 1 <= d <= 53).
  { split; [unfold d; lia | ].
    assert (d - 1 < 53) by (apply (Z.pow_lt_mono_r_iff 2); lia). lia. }
  unfold of_int, binary_normalize, binary_round, shl_align.
  replace (fexp prec emax (Zpos (digits2_pos kp) + 0) - 0) with (d - 53)
    by (unfold fexp, emin, prec, emax; fold d; lia).
  destruct (d - 53) as [ | c | c] eqn:Ec; try lia.
  - exists kp, 0. rewrite binary_round_aux_exact by (fold d; lia).
    repeat split; try lia.
    replace (d - 1) with 52 in Hlo by lia. exact Hlo.
  - assert (Hc : Zpos c = 53 - d) by lia.
    pose proof (iter_xO_spec kp c) as Hm.
    assert (H2c : 0 < 2 ^ Zpos c) by (apply Z.pow_pos_nonneg; lia).
    assert (Hbnd : 2 ^ 52 <= Zpos (Pos.iter xO kp c) < 2 ^ 53).
    { rewrite Hm. replace 52 with ((d - 1) + Zpos c) by lia.
      replace 53 with (d + Zpos c) by lia.
      rewrite !Z.pow_add_r by lia. nia. }
    exists (Pos.iter xO kp c), (fexp prec emax (Zpos (digits2_pos kp) + 0)).
    replace (fexp prec emax (Zpos (digits2_pos kp) + 0)) with (d - 53)
      by (unfold fexp, emin, prec, emax; fold d; lia).
    rewrite binary_round_aux_exact
      by (try (apply digits2_pos_unique; change (53 - 1) with 52); lia).
    repeat split; try lia.
    rewrite Hm. f_equal. f_equal. lia.
Qed.

(** *** The truncated product

    For [x = mx * 2^ex <= 1] and [k = mk * 2^ek], both with 53-digit
    mantissas, [int(x * k)] is the rounded mantissa of the product shifted
    down to the units. *)
Lemma mul_to_int (mx mk : positive) (ex ek : Z) :
  2 ^ 52 <= Zpos mx < 2 ^ 53 ->
  2 ^ 52 <= Zpos mk < 2 ^ 53 ->
  Zpos mx <= 2 ^ (- ex) ->
  -1000 <= ex <= -52 ->
  -52 <= ek <= 0 ->
  let M := Zpos (mx * mk) in
  let p := Zpos (digits2_pos (mx * mk)) - 53 in
  let t := - (ex + ek + p) in
  52 <= p <= 53 /\ p <= - ex /\ 0 <= t
  /\ 2 ^ 52 <= rne M p <= 2 ^ 53
  /\ to_int (SFmul prec emax (S754_finite false mx ex) (S754_finite false mk ek))
     = Ok (rne M p / 2 ^ t).
Proof.
  intros Hx Hk Hx1 Hex Hek M p t.
  pose proof (digits2_pos_bounds (mx * mk)) as [Hlo Hhi].
  fold M in Hlo, Hhi.
  set (d := Zpos (digits2_pos (mx * mk))) in *.
  assert (HM : M = Zpos mx * Zpos mk) by (unfold M; lia).
  assert (HMlo : 2 ^ 104 <= M).
  { rewrite HM. change (2 ^ 104) with (2 ^ 52 * 2 ^ 52). nia. }
  assert (HMhi : M < 2 ^ 106).
  { rewrite HM. change (2 ^ 106) with (2 ^ 53 * 2 ^ 53). nia. }
  assert (HMx : M < 2 ^ (53 - ex)).
  { rewrite HM. replace (53 - ex) with (- ex + 53) by lia.
    rewrite Z.pow_add_r by lia.
    assert (0 < 2 ^ (- ex)) by (apply Z.pow_pos_nonneg; lia). nia. }
  assert (Hd1 : 104 < d) by (apply (Z.pow_lt_mono_r_iff 2); lia).
  assert (Hd2 : d - 1 < 106) by (apply (Z.pow_lt_mono_r_iff 2); lia).
  assert (Hd3 : d - 1 < 53 - ex) by (apply (Z.pow_lt_mono_r_iff 2); lia).
  assert (Hp : 52 <= p <= 53) by (unfold p; lia).
  assert (Ht : 0 <= t) by (unfold t, p; lia).
  assert (Hge : 2 ^ 52 <= rne M p).
  { apply rne_ge_int; [lia | ].
    replace (d - 1) with (52 + p) in Hlo by (unfold p; lia).
    rewrite Z.pow_add_r in Hlo by lia. exact Hlo. }
  assert (Hle : rne M p <= 2 ^ 53).
  { apply rne_le_int; [lia | ].
    replace d with (53 + p) in Hhi by (unfold p; lia).
    rewrite Z.pow_add_r in Hhi by lia. lia. }
  split; [exact Hp | ]. split; [unfold p; lia | ].
  split; [exact Ht | ]. split; [lia | ].
  cbn [SFmul xorb].
  rewrite (binary_round_aux_long false (mx * mk) (ex + ek) p) by (unfold p; fold d; lia).
  fold M.
  destruct (Z.eqb_spec (rne M p) (2 ^ 53)) as [Hc | Hc]; cbn [to_int cond_Zopp]; f_equal.
  - rewrite Hc, Z2Pos.id by reflexivity.
    destruct (Z.eq_dec t 0) as [Ht0 | Ht0].
    + replace (ex + ek + p + 1) with 1 by lia. rewrite Ht0. reflexivity.
    + rewrite Z.shiftl_div_pow2 by lia.
      replace (- (ex + ek + p + 1)) with (t - 1) by lia.
      assert (H2t : 2 ^ t = 2 ^ (t - 1) * 2).
      { replace t with ((t - 1) + 1) at 1 by lia.
        rewrite Z.pow_add_r by lia. reflexivity. }
      rewrite H2t.
      change (2 ^ 53) with (2 ^ 52 * 2).
      rewrite Z.div_mul_cancel_r; [reflexivity | | lia].
      apply Z.pow_nonzero; lia.
  - rewrite Z2Pos.id by lia.
    rewrite Z.shiftl_div_pow2 by lia. reflexivity.
Qed.

(** *** The 255 quotients [v / 255]

    Each is at most one, with a 53-digit mantissa, and they increase with
    [v]; both facts are checked on the 255 values. *)

Lemma in_samples (v : Z) : 1 <= v <= 255 -> In v samples.
Proof.
  intros Hv. unfold samples. apply in_map_iff.
  exists (Z.to_nat v). split; [lia | apply in_seq; lia].
Qed.

Lemma quotient_table_spec :
  map (fun v => (v, quotient v)) samples = quotient_table.
Proof. vm_compute. reflexivity. Qed.

Lemma in_quotient_table (v : Z) :
  1 <= v <= 255 -> In (v, quotient v) quotient_table.
Proof.
  intros Hv. rewrite <- quotient_table_spec.
  apply (in_map (fun v => (v, quotient v))), in_samples, Hv.
Qed.

Lemma quotients_unit :
  forallb (fun vx => unit_quotient (snd vx)) quotient_table = true.
Proof. vm_compute. reflexivity. Qed.

Lemma quotients_mono :
  forallb (fun vx1 =>
    forallb (fun vx2 =>
               (fst vx2 <? fst vx1) || quotient_le (snd vx1) (snd vx2))
            quotient_table) quotient_table = true.
Proof. vm_compute. reflexivity. Qed.

Lemma quotient_unit (v : Z) :
  1 <= v <= 255 -> unit_quotient (quotient v) = true.
Proof.
  intros Hv. pose proof quotients_unit as H.
  rewrite forallb_forall in H. exact (H _ (in_quotient_table v Hv)).
Qed.

Lemma quotient_mono (v1 v2 : Z) :
  1 <= v1 -> v1 <= v2 -> v2 <= 255 ->
  quotient_le (quotient v1) (quotient v2) = true.
Proof.
  intros H1 H12 H2. pose proof quotients_mono as H.
  rewrite forallb_forall in H.
  specialize (H _ (in_quotient_table v1 ltac:(lia))).
  rewrite forallb_forall in H.
  specialize (H _ (in_quotient_table v2 ltac:(lia))).
  cbn [fst snd] in H. apply orb_true_iff in H.
  destruct H as [H | H]; [apply Z.ltb_lt in H; lia | exact H].
Qed.

Lemma quotient_255 : quotient 255 = S754_finite false (Z.to_pos (2 ^ 52)) (-52).
Proof. vm_compute. reflexivity. Qed.

Lemma quotient_0 : quotient 0 = S754_zero false.
Proof. reflexivity. Qed.

Lemma quotient_shape (v : Z) :
  1 <= v <= 255 ->
  exists mx ex,
    quotient v = S754_finite false mx ex
    /\ 2 ^ 52 <= Zpos mx < 2 ^ 53
    /\ -60 <= ex <= -52
    /\ Zpos mx <= 2 ^ (- ex).
Proof.
  intros Hv. pose proof (quotient_unit v Hv) as H.
  destruct (quotient v) as [ | | | [ | ] mx ex]; try discriminate H.
  cbn [unit_quotient] in H.
  repeat (apply andb_true_iff in H; destruct H as [H ?]).
  exists mx, ex. split; [reflexivity | ]. lia.
Qed.

(** A zero factor gives index 0. *)
Lemma index_zero_l (k : Z) :
  0 <= k < 2 ^ 53 ->
  to_int (SFmul prec emax (quotient 0) (of_int k)) = Ok 0.
Proof.
  intros Hk. rewrite quotient_0.
  destruct (Z.eq_dec k 0) as [-> | Hk0]; [reflexivity | ].
  destruct (of_int_pos k ltac:(lia)) as (mk & ek & -> & _). reflexivity.
Qed.

Lemma index_zero_r (v : Z) :
  0 <= v <= 255 ->
  to_int (SFmul prec emax (quotient v) (of_int 0)) = Ok 0.
Proof.
  intros Hv. change (of_int 0) with (S754_zero false).
  destruct (Z.eq_dec v 0) as [-> | Hv0]; [reflexivity | ].
  destruct (quotient_shape v ltac:(lia)) as (mx & ex & -> & _). reflexivity.
Qed.

(** *** The index is within the palette *)
Lemma index_bound (v k : Z) :
  0 <= v <= 255 -> 0 <= k < 2 ^ 53 ->
  exists i, to_int (SFmul prec emax (quotient v) (of_int k)) = Ok i /\ 0 <= i <= k.
Proof.
  intros Hv Hk.
  destruct (Z.eq_dec v 0) as [-> | Hv0].
  { exists 0. split; [apply index_zero_l; exact Hk | lia]. }
  destruct (Z.eq_dec k 0) as [-> | Hk0].
  { exists 0. split; [apply index_zero_r; exact Hv | lia]. }
  destruct (quotient_shape v ltac:(lia)) as (mx & ex & -> & Hmx & Hex & Hx1).
  destruct (of_int_pos k ltac:(lia)) as (mk & ek & -> & Hmk & Hek & Hkv).
  destruct (mul_to_int mx mk ex ek Hmx Hmk Hx1 ltac:(lia) Hek)
    as (Hp & Hpx & Ht & Hr & ->).
  set (p := Zpos (digits2_pos (mx * mk)) - 53) in *.
  set (t := - (ex + ek + p)) in *.
  set (M := Zpos (mx * mk)) in *.
  assert (H2t : 0 < 2 ^ t) by (apply Z.pow_pos_nonneg; lia).
  eexists. split; [reflexivity | ]. split.
  - apply Z.div_pos; lia.
  - apply Z.div_le_upper_bound; [lia | ].
    rewrite Z.mul_comm. apply rne_le_int; [lia | ].
    rewrite <- Z.mul_assoc, <- Z.pow_add_r by lia.
    replace (t + p) with (- ex + - ek) by (unfold t; lia).
    rewrite Z.pow_add_r by lia.
    assert (0 < 2 ^ (- ek)) by (apply Z.pow_pos_nonneg; lia).
    unfold M. rewrite Pos2Z.inj_mul. nia.
Qed.

(** *** The brightest sample selects the last index *)
Lemma index_255 (k : Z) :
  0 <= k < 2 ^ 53 ->
  to_int (SFmul prec emax (quotient 255) (of_int k)) = Ok k.
Proof.
  intros Hk.
  destruct (Z.eq_dec k 0) as [-> | Hk0]; [apply index_zero_r; lia | ].
  rewrite quotient_255.
  destruct (of_int_pos k ltac:(lia)) as (mk & ek & -> & Hmk & Hek & Hkv).
  destruct (mul_to_int (Z.to_pos (2 ^ 52)) mk (-52) ek) as (Hp & Hpx & Ht & Hr & ->);
    try (cbn; lia).
  set (p := Zpos (digits2_pos (Z.to_pos (2 ^ 52) * mk)) - 53) in *.
  assert (Hp52 : p = 52) by lia.
  rewrite Hp52. f_equal.
  rewrite Pos2Z.inj_mul, Z2Pos.id by reflexivity.
  rewrite (Z.mul_comm (2 ^ 52)), rne_exact by lia.
  replace (- (-52 + ek + 52)) with (- ek) by lia.
  rewrite Hkv. apply Z.div_mul. apply Z.pow_nonzero; lia.
Qed.

(** *** The index grows with the sample *)
Lemma index_mono (v1 v2 k : Z) :
  0 <= v1 -> v1 <= v2 -> v2 <= 255 -> 0 <= k < 2 ^ 53 ->
  exists i1 i2,
    to_int (SFmul prec emax (quotient v1) (of_int k)) = Ok i1
    /\ to_int (SFmul prec emax (quotient v2) (of_int k)) = Ok i2
    /\ i1 <= i2.
Proof.
  intros H1 H12 H2 Hk.
  destruct (Z.eq_dec v1 0) as [-> | Hv1].
  { destruct (index_bound v2 k ltac:(lia) Hk) as (i2 & Hi2 & Hb).
    exists 0, i2. split; [apply index_zero_l; exact Hk | ]. split; [exact Hi2 | lia]. }
  destruct (Z.eq_dec k 0) as [-> | Hk0].
  { exists 0, 0. rewrite !index_zero_r by lia. repeat split; lia. }
  pose proof (quotient_mono v1 v2 ltac:(lia) H12 H2) as Hle.
  destruct (quotient_shape v1 ltac:(lia)) as (m1 & e1 & Hq1 & Hm1 & He1 & Hx1).
  destruct (quotient_shape v2 ltac:(lia)) as (m2 & e2 & Hq2 & Hm2 & He2 & Hx2).
  rewrite Hq1, Hq2 in *. cbn [quotient_le] in Hle.
  apply Z.leb_le in Hle. rewrite !Z.shiftl_mul_pow2 in Hle by lia.
  destruct (of_int_pos k ltac:(lia)) as (mk & ek & -> & Hmk & Hek & Hkv).
  destruct (mul_to_int m1 mk e1 ek Hm1 Hmk Hx1 ltac:(lia) Hek)
    as (Hp1 & Hpx1 & Ht1 & Hr1 & ->).
  destruct (mul_to_int m2 mk e2 ek Hm2 Hmk Hx2 ltac:(lia) Hek)
    as (Hp2 & Hpx2 & Ht2 & Hr2 & ->).
  pose proof (digits2_pos_bounds (m1 * mk)) as [Hlo1 Hhi1].
  pose proof (digits2_pos_bounds (m2 * mk)) as [Hlo2 Hhi2].
  set (d1 := Zpos (digits2_pos (m1 * mk))) in *.
  set (d2 := Zpos (digits2_pos (m2 * mk))) in *.
  set (M1 := Zpos (m1 * mk)) in *.
  set (M2 := Zpos (m2 * mk)) in *.
  set (p1 := d1 - 53) in *. set (p2 := d2 - 53) in *.
  set (t1 := - (e1 + ek + p1)) in *. set (t2 := - (e2 + ek + p2)) in *.
  assert (HM : M1 * 2 ^ (- e2) <= M2 * 2 ^ (- e1)).
  { unfold M1, M2. rewrite !Pos2Z.inj_mul. nia. }
  assert (P1 : 0 < 2 ^ t1) by (apply Z.pow_pos_nonneg; lia).
  assert (P2 : 0 < 2 ^ t2) by (apply Z.pow_pos_nonneg; lia).
  do 2 eexists. split; [reflexivity | ]. split; [reflexivity | ].
  destruct (Z.lt_trichotomy t1 t2) as [Hlt | [Heq | Hgt]].
  - (* a smaller product cannot lie in a higher binade *)
    exfalso.
    assert (A1 : 2 ^ (d1 - 1 + - e2) <= M1 * 2 ^ (- e2)).
    { rewrite Z.pow_add_r by lia. apply Z.mul_le_mono_nonneg_r; [ | exact Hlo1].
      apply Z.pow_nonneg; lia. }
    assert (A2 : M2 * 2 ^ (- e1) < 2 ^ (d2 + - e1)).
    { rewrite Z.pow_add_r by lia. apply Z.mul_lt_mono_pos_r; [ | exact Hhi2].
      apply Z.pow_pos_nonneg; lia. }
    assert (d1 - 1 + - e2 < d2 + - e1) by (apply (Z.pow_lt_mono_r_iff 2); lia).
    unfold t1, t2, p1, p2 in Hlt. lia.
  - (* same binade: the rounding is monotone *)
    rewrite <- Heq. apply Z.div_le_mono; [lia | ].
    rewrite <- (rne_scale M1 p1 p2), <- (rne_scale M2 p2 p1) by lia.
    rewrite (Z.add_comm p2 p1). apply rne_mono; [lia | ].
    set (c := - e1 - p1).
    assert (Hc : 0 <= c) by (unfold c; lia).
    assert (Hc2 : 0 < 2 ^ c) by (apply Z.pow_pos_nonneg; lia).
    replace (- e2) with (p2 + c) in HM by (unfold c, t1, t2 in *; lia).
    replace (- e1) with (p1 + c) in HM by (unfold c; lia).
    rewrite !Z.pow_add_r in HM by lia.
    apply (Z.mul_le_mono_pos_r _ _ (2 ^ c)); lia.
  - (* a lower binade: everything in it is below everything above *)
    apply Z.le_trans with (2 ^ 53 / 2 ^ t1); [apply Z.div_le_mono; lia | ].
    apply Z.le_trans with (2 ^ 52 / 2 ^ t2); [ | apply Z.div_le_mono; lia].
    apply Z.le_trans with (2 ^ 53 / 2 ^ (t2 + 1)).
    + apply Z.div_le_compat_l; [lia | ]. split; [apply Z.pow_pos_nonneg; lia | ].
      apply Z.pow_le_mono_r; lia.
    + rewrite Z.pow_add_r by lia. change (2 ^ 53) with (2 ^ 52 * 2 ^ 1).
      rewrite Z.div_mul_cancel_r; lia.
Qed.
End FloatFacts.

(** ** The quantizer *)

Module QuantizeFacts.

Import PyFloat Quotients AsciiArt FloatFacts.

Lemma char_index_eq (v : Z) (chars : string) :
  char_index v chars
  = to_int (SFmul prec emax (quotient v) (of_int (PyStr.len chars - 1))).
Proof. reflexivity. Qed.

Lemma get_some (s : string) (n : nat) :
  (n < String.length s)%nat -> exists c, String.get n s = Some c.
Proof.
  revert n. induction s as [ | a s IH]; intros n Hn; cbn in Hn; [lia | ].
  destruct n as [ | n]; cbn [String.get]; [eauto | apply IH; lia].
Qed.

Lemma getitem_in_range (chars : string) (i : Z) :
  0 <= i < PyStr.len chars ->
  exists c, String.get (Z.to_nat i) chars = Some c /\ PyStr.getitem chars i = Ok c.
Proof.
  intros Hi. unfold PyStr.getitem.
  replace (i <? 0) with false by (symmetry; apply Z.ltb_ge; lia).
  replace ((0 <=? i) && (i <? PyStr.len chars)) with true
    by (symmetry; apply andb_true_iff; split; [apply Z.leb_le | apply Z.ltb_lt]; lia).
  destruct (get_some chars (Z.to_nat i)) as [c Hc]; [unfold PyStr.len in Hi; lia | ].
  rewrite Hc. exists c. split; reflexivity.
Qed.

Lemma char_index_bound (v : Z) (chars : string) :
  0 <= v <= 255 -> palette_ok chars ->
  exists idx, char_index v chars = Ok idx /\ 0 <= idx <= PyStr.len chars - 1.
Proof.
  intros Hv Hp. rewrite char_index_eq.
  apply index_bound; [exact Hv | unfold palette_ok in Hp; lia].
Qed.

Lemma select_char_ok (v : Z) (chars : string) :
  0 <= v <= 255 -> palette_ok chars ->
  exists idx c,
    char_index v chars = Ok idx
    /\ 0 <= idx <= PyStr.len chars - 1
    /\ PyStr.getitem chars idx = Ok c
    /\ select_char v chars = Ok c.
Proof.
  intros Hv Hp.
  destruct (char_index_bound v chars Hv Hp) as (idx & Hidx & Hb).
  destruct (getitem_in_range chars idx ltac:(lia)) as (c & _ & Hc).
  exists idx, c. unfold select_char. rewrite Hidx. cbn [bind]. auto.
Qed.


(** *** The two loops *)

Lemma in_range (n j : Z) : In j (range n) <-> 0 <= j < n.
Proof.
  unfold range. rewrite in_map_iff. split.
  - intros (k & <- & Hk). apply in_seq in Hk. lia.
  - intros Hj. exists (Z.to_nat j). split; [lia | apply in_seq; lia].
Qed.

Lemma range_length (n : Z) : List.length (range n) = Z.to_nat n.
Proof. unfold range. rewrite length_map, length_seq. reflexivity. Qed.

(** A loop whose body keeps a counted invariant returns, with the
    invariant at the number of iterations. *)
Lemma for_each_inv {S : Type} (P : nat -> S -> Prop) (xs : list Z)
      (body : Z -> S -> result S) :
  (forall x n s, In x xs -> P n s -> exists s', body x s = Ok s' /\ P (Datatypes.S n) s') ->
  forall n s, P n s ->
  exists s', for_each xs body s = Ok s' /\ P (n + List.length xs)%nat s'.
Proof.
  induction xs as [ | x xs IH]; intros Hbody n s Hs; cbn [for_each List.length].
  - exists s. rewrite Nat.add_0_r. auto.
  - destruct (Hbody x n s (or_introl eq_refl) Hs) as (s1 & -> & Hs1). cbn [bind].
    destruct (IH (fun y m t Hy => Hbody y m t (or_intror Hy)) _ _ Hs1) as (s' & Hrun & Hs').
    exists s'. split; [exact Hrun | ].
    replace (n + Datatypes.S (List.length xs))%nat
      with (Datatypes.S n + List.length xs)%nat by lia.
    exact Hs'.
Qed.

Lemma length_append (s1 s2 : string) :
  String.length (s1 ++ s2) = (String.length s1 + String.length s2)%nat.
Proof. induction s1 as [ | a s1 IH]; cbn; [reflexivity | rewrite IH; reflexivity]. Qed.

Lemma pixel_at_ok (pixels : list Z) (width height i j : Z) :
  grid_ok pixels width height ->
  0 <= i < height -> 0 <= j < width ->
  exists v, pixel_at pixels (i * width + j) = Ok v /\ 0 <= v <= 255.
Proof.
  intros (Hw & Hh & Hlen & Hall) Hi Hj. unfold pixel_at.
  replace (i * width + j <? 0) with false by (symmetry; apply Z.ltb_ge; nia).
  destruct (nth_error pixels (Z.to_nat (i * width + j))) as [v | ] eqn:Hnth.
  - exists v. split; [reflexivity | ].
    rewrite Forall_forall in Hall. apply Hall. eapply nth_error_In, Hnth.
  - exfalso. apply nth_error_None in Hnth. nia.
Qed.

Lemma pixel_step_ok (pixels : list Z) (width height : Z) (chars : string)
      (i j : Z) (line : string) :
  grid_ok pixels width height -> palette_ok chars ->
  0 <= i < height -> 0 <= j < width ->
  exists c, pixel_step pixels width chars i j line = Ok (line ++ String c EmptyString).
Proof.
  intros Hg Hp Hi Hj.
  destruct (pixel_at_ok pixels width height i j Hg Hi Hj) as (v & Hv & Hb).
  destruct (select_char_ok v chars Hb Hp) as (idx & c & _ & _ & _ & Hc).
  exists c. unfold pixel_step. rewrite Hv. cbn [bind]. rewrite Hc. reflexivity.
Qed.

Lemma row_step_ok (pixels : list Z) (width height : Z) (chars : string)
      (i : Z) (ascii_lines : list string) :
  grid_ok pixels width height -> palette_ok chars ->
  0 <= i < height ->
  exists line,
    row_step pixels width chars i ascii_lines = Ok (ascii_lines ++ [line])%list
    /\ PyStr.len line = width.
Proof.
  intros Hg Hp Hi.
  destruct (for_each_inv (fun n line => String.length line = n) (range width)
              (pixel_step pixels width chars i)) with (n := 0%nat) (s := "")
    as (line & Hrun & Hlen).
  - intros j n s Hj Hs. apply in_range in Hj.
    destruct (pixel_step_ok pixels width height chars i j s Hg Hp Hi Hj) as (c & ->).
    eexists. split; [reflexivity | ]. rewrite length_append, Hs. cbn. lia.
  - reflexivity.
  - exists line. unfold row_step. rewrite Hrun. cbn [bind]. split; [reflexivity | ].
    unfold PyStr.len. rewrite Hlen, range_length. cbn. destruct Hg. lia.
Qed.

(** The conversion returns [height] rows of [width] characters. *)
Lemma to_ascii_lines_ok (pixels : list Z) (width height : Z) (chars : string) :
  grid_ok pixels width height -> palette_ok chars ->
  exists ascii_lines,
    to_ascii_lines pixels width height chars = Ok ascii_lines
    /\ Z.of_nat (List.length ascii_lines) = height
    /\ Forall (fun line => PyStr.len line = width) ascii_lines.
Proof.
  intros Hg Hp.
  destruct (for_each_inv
              (fun n rows => List.length rows = n
                             /\ Forall (fun line => PyStr.len line = width) rows)
              (range height) (row_step pixels width chars))
    with (n := 0%nat) (s := @nil string) as (rows & Hrun & Hlen & Hall).
  - intros i n rows Hi [Hn Hrows]. apply in_range in Hi.
    destruct (row_step_ok pixels width height chars i rows Hg Hp Hi) as (line & -> & Hl).
    eexists. split; [reflexivity | ]. split.
    + rewrite length_app, Hn. cbn. lia.
    + apply Forall_app. split; [exact Hrows | constructor; [exact Hl | constructor]].
  - split; [reflexivity | constructor].
  - exists rows. split; [exact Hrun | ]. split; [ | exact Hall].
    rewrite Hlen, range_length. cbn. destruct Hg as (_ & Hh & _). lia.
Qed.

(** *** Where the double index leaves the exact one *)

(** Up to 51 characters the index is the exact [floor (v * (n - 1) / 255)]. *)
Lemma char_index_exact_small :
  forallb (fun k =>
    forallb (fun v =>
      match to_int (SFmul prec emax (quotient v) (of_int k)) with
      | Ok i => i =? (v * k) / 255
      | Raise _ => false
      end) (range 256)) (range 51) = true.
Proof. vm_compute. reflexivity. Qed.

Lemma char_index_exact_upto_51 (v : Z) (chars : string) :
  0 <= v <= 255 -> 1 <= PyStr.len chars <= 51 ->
  char_index v chars = Ok (exact_index v (PyStr.len chars)).
Proof.
  intros Hv Hn. pose proof char_index_exact_small as H.
  rewrite forallb_forall in H.
  specialize (H (PyStr.len chars - 1)). rewrite in_range in H.
  specialize (H ltac:(lia)). rewrite forallb_forall in H.
  specialize (H v). rewrite in_range in H. specialize (H ltac:(lia)).
  rewrite char_index_eq. unfold exact_index.
  destruct (to_int _) as [i | ]; [ | discriminate H].
  apply Z.eqb_eq in H. rewrite H. reflexivity.
Qed.

(** C1. The specification selects the character at index
    [floor (v / 255 * (n - 1))].  With a palette of 52 characters and the
    sample 155 that index is 31 ([155 * 51 = 31 * 255]), but the script
    computes [155 / 255] and the product in doubles, gets
    [30.999999999999996], truncates it to 30 and selects the character
    before the one the specification names. *)
Theorem char_index_below_exact_at_52 :
  PyStr.len upper_lower = 52
  /\ exact_index 155 (PyStr.len upper_lower) = 31
  /\ char_index 155 upper_lower = Ok 30
  /\ select_char 155 upper_lower = Ok "e"%char
  /\ PyStr.getitem upper_lower (exact_index 155 (PyStr.len upper_lower)) = Ok "f"%char
  /\ to_ascii_lines [155] 1 1 upper_lower = Ok ["e"].
Proof. vm_compute. repeat split. Qed.

(** C6. For a palette of [n >= 2] characters the sample 0 selects its
    first character (index 0) and the sample 255 its last (index [n - 1]). *)
Theorem select_char_extremes (chars : string) :
  2 <= PyStr.len chars -> palette_ok chars ->
  exists first last,
    String.get 0 chars = Some first
    /\ String.get (String.length chars - 1) chars = Some last
    /\ char_index 0 chars = Ok 0
    /\ select_char 0 chars = Ok first
    /\ char_index 255 chars = Ok (PyStr.len chars - 1)
    /\ select_char 255 chars = Ok last.
Proof.
  intros Hn Hp. unfold palette_ok in Hp.
  assert (H0 : char_index 0 chars = Ok 0).
  { rewrite char_index_eq. apply index_zero_l. lia. }
  assert (H255 : char_index 255 chars = Ok (PyStr.len chars - 1)).
  { rewrite char_index_eq. apply index_255. lia. }
  destruct (getitem_in_range chars 0 ltac:(lia)) as (first & Hg0 & Hi0).
  destruct (getitem_in_range chars (PyStr.len chars - 1) ltac:(lia)) as (last & Hgl & Hil).
  exists first, last. unfold select_char. rewrite H0, H255. cbn [bind].
  replace (Z.to_nat (PyStr.len chars - 1)) with (String.length chars - 1)%nat in Hgl
    by (unfold PyStr.len; lia).
  repeat split; assumption.
Qed.

Lemma select_char_extremes_witness :
  2 <= PyStr.len default_chars /\ palette_ok default_chars /\
  exists first last,
    String.get 0 default_chars = Some first
    /\ String.get (String.length default_chars - 1) default_chars = Some last
    /\ char_index 0 default_chars = Ok 0
    /\ select_char 0 default_chars = Ok first
    /\ char_index 255 default_chars = Ok (PyStr.len default_chars - 1)
    /\ select_char 255 default_chars = Ok last.
Proof.
  assert (Hn : 2 <= PyStr.len default_chars) by (vm_compute; discriminate).
  assert (Hp : palette_ok default_chars) by (vm_compute; split; discriminate).
  split; [exact Hn | split; [exact Hp | ]].
  exact (select_char_extremes default_chars Hn Hp).
Defined.

(** C7. For a palette of [n >= 2] characters and samples [v1 <= v2] in
    [0, 255], the index computed for [v1] is at most the one for [v2]. *)
Theorem char_index_monotone (chars : string) (v1 v2 : Z) :
  2 <= PyStr.len chars -> palette_ok chars ->
  0 <= v1 -> v1 <= v2 -> v2 <= 255 ->
  exists i1 i2,
    char_index v1 chars = Ok i1 /\ char_index v2 chars = Ok i2 /\ i1 <= i2.
Proof.
  intros Hn Hp H1 H12 H2. rewrite !char_index_eq.
  apply index_mono; try assumption. unfold palette_ok in Hp. lia.
Qed.

Lemma char_index_monotone_witness :
  2 <= PyStr.len default_chars /\ palette_ok default_chars /\
  exists i1 i2,
    char_index 100 default_chars = Ok i1
    /\ char_index 200 default_chars = Ok i2 /\ i1 <= i2.
Proof.
  assert (Hn : 2 <= PyStr.len default_chars) by (vm_compute; discriminate).
  assert (Hp : palette_ok default_chars) by (vm_compute; split; discriminate).
  split; [exact Hn | split; [exact Hp | ]].
  apply (char_index_monotone default_chars 100 200 Hn Hp); lia.
Defined.



(** C4. For a successfully loaded image and the requested [width] and
    [height], [image_to_ascii] returns exactly [height] rows, each of
    exactly [width] characters. *)
Theorem image_to_ascii_dimensions (load : string -> Z -> Z -> result (list Z))
        (path : string) (width height : Z) (chars : string)
        (pixels : list Z) (w : world) :
  load path width height = Ok pixels ->
  grid_ok pixels width height ->
  palette_ok chars ->
  exists ascii_lines,
    image_to_ascii load path width height chars w = Done ascii_lines w
    /\ Z.of_nat (List.length ascii_lines) = height
    /\ Forall (fun line => PyStr.len line = width) ascii_lines.
Proof.
  intros Hload Hg Hp.
  destruct (to_ascii_lines_ok pixels width height chars Hg Hp) as (rows & Hrows & Hh & Hw).
  exists rows. unfold image_to_ascii, image_to_ascii_try.
  rewrite Hload. cbn [bind]. rewrite Hrows. auto.
Qed.

Lemma image_to_ascii_dimensions_witness :
  let load := fun (_ : string) (_ _ : Z) => Ok [0; 255; 128; 54; 200; 17] in
  exists ascii_lines,
    image_to_ascii load "me.png" 3 2 default_chars empty_world
    = Done ascii_lines empty_world
    /\ Z.of_nat (List.length ascii_lines) = 2
    /\ Forall (fun line => PyStr.len line = 3) ascii_lines.
Proof.
  intros load.
  apply (image_to_ascii_dimensions load "me.png" 3 2 default_chars
           [0; 255; 128; 54; 200; 17] empty_world).
  - reflexivity.
  - unfold grid_ok. cbn. repeat split; try lia.
    repeat constructor; lia.
  - unfold palette_ok. vm_compute. split; discriminate.
Defined.
End QuantizeFacts.

(** ** The SVG renderer *)

Module SvgFacts.

Import AsciiArt.

Lemma append_assoc (s1 s2 s3 : string) : (s1 ++ s2) ++ s3 = s1 ++ (s2 ++ s3).
Proof. induction s1 as [ | a s1 IH]; cbn; [reflexivity | rewrite IH; reflexivity]. Qed.

Lemma append_nil_r (s : string) : s ++ "" = s.
Proof. induction s as [ | a s IH]; cbn; [reflexivity | rewrite IH; reflexivity]. Qed.

Lemma prefix_nil (s : string) : String.prefix "" s = true.
Proof. destruct s; reflexivity. Qed.

(** *** [replace] with a one-character pattern works character by character *)
Lemma replace_char_cons (c : ascii) (new : string) (a : ascii) (s : string) :
  PyStr.replace (String c "") new (String a s)
  = (if Ascii.eqb a c then new else String a "") ++ PyStr.replace (String c "") new s.
Proof.
  unfold PyStr.replace. cbn [PyStr.replace_from String.prefix String.length Nat.sub].
  rewrite prefix_nil.
  destruct (ascii_dec c a) as [<- | Hne].
  - rewrite Ascii.eqb_refl. reflexivity.
  - destruct (Ascii.eqb_spec a c) as [-> | _]; [contradiction | reflexivity].
Qed.

Lemma replace_char_nil (c : ascii) (new : string) :
  PyStr.replace (String c "") new "" = "".
Proof. reflexivity. Qed.

Lemma replace_char_app (c : ascii) (new s1 s2 : string) :
  PyStr.replace (String c "") new (s1 ++ s2)
  = PyStr.replace (String c "") new s1 ++ PyStr.replace (String c "") new s2.
Proof.
  induction s1 as [ | a s1 IH].
  - reflexivity.
  - change (String a s1 ++ s2) with (String a (s1 ++ s2)).
    rewrite !replace_char_cons, IH, append_assoc. reflexivity.
Qed.

Lemma escape_app (s1 s2 : string) : escape (s1 ++ s2) = escape s1 ++ escape s2.
Proof. unfold escape. rewrite !replace_char_app. reflexivity. Qed.

Lemma escape_one (c : ascii) : escape (String c "") = escape_char c.
Proof.
  unfold escape, escape_char.
  rewrite (replace_char_cons "&" "&amp;" c ""), replace_char_nil, append_nil_r.
  destruct (Ascii.eqb_spec c "&") as [-> | Hamp]; [reflexivity | ].
  rewrite (replace_char_cons "<" "&lt;" c ""), replace_char_nil, append_nil_r.
  destruct (Ascii.eqb_spec c "<") as [-> | Hlt]; [reflexivity | ].
  rewrite (replace_char_cons ">" "&gt;" c ""), replace_char_nil, append_nil_r.
  destruct (Ascii.eqb_spec c ">") as [-> | Hgt]; reflexivity.
Qed.

(** C2. The three replacements of a row, [&] first, then [<], then [>],
    amount to one pass that replaces exactly these three characters by
    [&amp;], [&lt;] and [&gt;]; the row [&<>] escapes to [&amp;&lt;&gt;],
    with no ampersand escaped twice. *)
Theorem escape_single_pass :
  (forall line, escape line = escape_once line)
  /\ escape "&<>" = "&amp;&lt;&gt;".
Proof.
  split; [ | reflexivity].
  induction line as [ | c rest IH]; [reflexivity | ].
  change (String c rest) with (String c "" ++ rest).
  rewrite escape_app, escape_one, IH. reflexivity.
Qed.

(** Escaping [<] before [&] would escape the new ampersand again. *)
Example escape_order_matters :
  PyStr.replace "&" "&amp;" (PyStr.replace "<" "&lt;" "<") = "&amp;lt;".
Proof. reflexivity. Qed.


(** *** The loop of [format_for_svg] *)

Lemma svg_loop_acc (x y_start line_height i : Z) (art acc : list string) :
  svg_loop x y_start line_height i art acc
  = (acc ++ elements_from x y_start line_height i art)%list.
Proof.
  revert i acc. induction art as [ | row rest IH]; intros i acc; cbn.
  - rewrite app_nil_r. reflexivity.
  - rewrite IH, <- app_assoc. reflexivity.
Qed.



(** *** Angle brackets in the fragment *)

Lemma count_char_app (c : ascii) (s1 s2 : string) :
  count_char c (s1 ++ s2) = (count_char c s1 + count_char c s2)%nat.
Proof. induction s1 as [ | a s1 IH]; cbn; [reflexivity | rewrite IH; lia]. Qed.

Lemma escape_no_lt (row : string) : count_char "<" (escape row) = 0%nat.
Proof.
  induction row as [ | c rest IH]; [reflexivity | ].
  change (String c rest) with (String c "" ++ rest).
  rewrite escape_app, count_char_app, IH, escape_one. unfold escape_char.
  destruct (Ascii.eqb_spec c "&") as [-> | _]; [reflexivity | ].
  destruct (Ascii.eqb_spec c "<") as [-> | Hlt]; [reflexivity | ].
  destruct (Ascii.eqb_spec c ">") as [-> | _]; [reflexivity | ].
  cbn. destruct (Ascii.eqb_spec c "<"); [contradiction | reflexivity].
Qed.






Example format_for_svg_two_rows :
  format_for_svg ["a<b"; "@@"] 5 10 20
  = "<tspan x=" ++ PyStr.dquote ++ "5" ++ PyStr.dquote
      ++ " y=" ++ PyStr.dquote ++ "10" ++ PyStr.dquote ++ ">a&lt;b</tspan>"
      ++ PyStr.newline
      ++ "<tspan x=" ++ PyStr.dquote ++ "5" ++ PyStr.dquote
      ++ " y=" ++ PyStr.dquote ++ "30" ++ PyStr.dquote ++ ">@@</tspan>".
Proof. reflexivity. Qed.
End SvgFacts.

(** ** The text renderer and the process *)

Module ProcessFacts.

Import AsciiArt QuantizeFacts SvgFacts.

Lemma print_lines_spec (art : list string) (w : world) :
  print_lines art w
  = {| stdout := stdout w ++ lines_text art; stderr := stderr w |}.
Proof.
  revert w. induction art as [ | row rest IH]; intros w; cbn [print_lines lines_text].
  - rewrite append_nil_r. destruct w; reflexivity.
  - rewrite IH. unfold print. cbn [stdout stderr]. rewrite !append_assoc. reflexivity.
Qed.

Lemma lines_text_join (row : string) (rest : list string) :
  lines_text (row :: rest) = PyStr.join PyStr.newline (row :: rest) ++ PyStr.newline.
Proof.
  revert row. induction rest as [ | r rest IH]; intros row.
  - reflexivity.
  - change (lines_text (row :: r :: rest)) with (row ++ PyStr.newline ++ lines_text (r :: rest)).
    rewrite IH. unfold PyStr.join. cbn [String.concat].
    rewrite !append_assoc. reflexivity.
Qed.

(** The text written for two rows ends with a newline that joining the
    rows does not produce. *)
Lemma print_lines_not_join :
  stdout (print_lines ["@@"; "@@"] empty_world) <> PyStr.join PyStr.newline ["@@"; "@@"].
Proof. vm_compute. discriminate. Qed.

(** C9, as the script has it.  The text output is the rows, no character
    of any row changed, each followed by the row separator: the rows
    joined by newlines and, when there is at least one row, a final
    newline.  Nothing goes to stderr. *)
Theorem print_lines_output (art : list string) (w : world) :
  stdout (print_lines art w)
  = stdout w ++ match art with
                | [] => ""
                | _ => PyStr.join PyStr.newline art ++ PyStr.newline
                end
  /\ stderr (print_lines art w) = stderr w.
Proof.
  rewrite print_lines_spec. cbn [stdout stderr]. split; [ | reflexivity].
  destruct art as [ | row rest]; [reflexivity | ].
  rewrite lines_text_join. reflexivity.
Qed.




(** *** The empty palette *)

Lemma range_pos (n : Z) : 0 < n -> exists rest, range n = 0 :: rest.
Proof.
  intros Hn. unfold range.
  destruct (Z.to_nat n) as [ | k] eqn:Hk; [lia | ].
  cbn [seq map]. eexists. reflexivity.
Qed.

Lemma getitem_empty (i : Z) : PyStr.getitem "" i = Raise "string index out of range".
Proof.
  unfold PyStr.getitem. cbn [PyStr.len String.length Z.of_nat].
  destruct (i <? 0); destruct (0 <=? _) eqn:H0; cbn [andb]; try reflexivity;
    destruct (_ <? 0) eqn:H1; try reflexivity; exfalso;
    apply Z.leb_le in H0; apply Z.ltb_lt in H1; lia.
Qed.

Lemma char_index_empty_returns :
  forallb (fun v => match char_index v "" with Ok _ => true | Raise _ => false end)
          (range 256) = true.
Proof. vm_compute. reflexivity. Qed.

Lemma select_char_empty (v : Z) :
  0 <= v <= 255 -> select_char v "" = Raise "string index out of range".
Proof.
  intros Hv. pose proof char_index_empty_returns as H.
  rewrite forallb_forall in H. specialize (H v). rewrite in_range in H.
  specialize (H ltac:(lia)). unfold select_char.
  destruct (char_index v "") as [idx | ]; [ | discriminate H].
  cbn [bind]. apply getitem_empty.
Qed.

(** C10. With a palette of length 0 and a loaded image of at least one
    sample, the run ends as for an image that cannot be loaded: status 1,
    the diagnostic of the same handler on stderr, nothing on stdout. *)
Theorem empty_palette_exits (load : string -> Z -> Z -> result (list Z))
        (a : args) (pixels : list Z) :
  load (image_path a) (width a) (height a) = Ok pixels ->
  grid_ok pixels (width a) (height a) ->
  0 < width a -> 0 < height a ->
  chars a = "" ->
  main load a empty_world
  = Exited 1 {| stdout := "";
                stderr := "Error processing image: string index out of range"
                            ++ PyStr.newline |}
  /\ exit_status (main load a empty_world) <> 0.
Proof.
  intros Hload Hg Hw Hh Hc.
  assert (Hraise : to_ascii_lines pixels (width a) (height a) (chars a)
                   = Raise "string index out of range").
  { rewrite Hc. unfold to_ascii_lines.
    destruct (range_pos (height a) Hh) as (rows & ->).
    destruct (range_pos (width a) Hw) as (cols & Hcols).
    cbn [for_each]. unfold row_step at 1. rewrite Hcols. cbn [for_each].
    unfold pixel_step at 1.
    destruct (pixel_at_ok pixels (width a) (height a) 0 0 Hg ltac:(lia) ltac:(lia))
      as (v & -> & Hv).
    cbn [bind]. rewrite (select_char_empty v Hv). reflexivity. }
  assert (Hmain : main load a empty_world
                  = Exited 1 {| stdout := "";
                                stderr := "Error processing image: string index out of range"
                                            ++ PyStr.newline |}).
  { unfold main, image_to_ascii, image_to_ascii_try.
    rewrite Hload. cbn [bind]. rewrite Hraise. reflexivity. }
  rewrite Hmain. split; [reflexivity | discriminate].
Qed.

Lemma empty_palette_exits_witness :
  let load := fun (_ : string) (_ _ : Z) => Ok [0; 0; 255; 255] in
  let a := {| image_path := "me.png"; width := 2; height := 2;
              chars := ""; fmt := svg;
              x := 15; y_start := 30; line_height := 20 |} in
  main load a empty_world
  = Exited 1 {| stdout := "";
                stderr := "Error processing image: string index out of range"
                            ++ PyStr.newline |}
  /\ exit_status (main load a empty_world) <> 0.
Proof.
  intros load a.
  apply (empty_palette_exits load a [0; 0; 255; 255]).
  - reflexivity.
  - unfold grid_ok. cbn. repeat split; try lia. repeat constructor; lia.
  - cbn. lia.
  - cbn. lia.
  - reflexivity.
Defined.
(** *** The scenarios of the specification, run *)

Example black_square :
  to_ascii_lines [0; 0; 0; 0] 2 2 "@ " = Ok ["@@"; "@@"].
Proof. vm_compute. reflexivity. Qed.

Example white_square :
  to_ascii_lines [255; 255; 255; 255] 2 2 "@ " = Ok ["  "; "  "].
Proof. vm_compute. reflexivity. Qed.

Example mid_gray_svg :
  main (fun _ _ _ => Ok [128])
       {| image_path := "gray.png"; width := 1; height := 1;
          chars := default_chars; fmt := svg;
          x := 5; y_start := 10; line_height := 20 |}
       empty_world
  = Done tt {| stdout := "<tspan x=" ++ PyStr.dquote ++ "5" ++ PyStr.dquote
                           ++ " y=" ++ PyStr.dquote ++ "10" ++ PyStr.dquote
                           ++ ">+</tspan>" ++ PyStr.newline;
               stderr := "" |}.
Proof. vm_compute. reflexivity. Qed.

End ProcessFacts.

(** ** How far the double index is from the exact one *)

Module AccuracyFacts.

Import PyFloat Quotients QuotientChecks AsciiArt FloatFacts QuantizeFacts.

Lemma quotients_close :
  forallb (fun vx => (fst vx =? 255) || close_quotient vx) quotient_table = true.
Proof. vm_compute. reflexivity. Qed.

Lemma quotient_close (v : Z) :
  1 <= v <= 254 ->
  exists mx ex,
    quotient v = S754_finite false mx ex
    /\ 2 ^ 52 <= Zpos mx < 2 ^ 53
    /\ -60 <= ex <= -53
    /\ Zpos mx <= 2 ^ (- ex)
    /\ 2 * Z.abs (255 * Zpos mx - v * 2 ^ (- ex)) <= 255
    /\ 256 * Zpos mx <= 255 * 2 ^ (- ex).
Proof.
  intros Hv.
  destruct (quotient_shape v ltac:(lia)) as (mx & ex & Hq & Hm & He & H1).
  pose proof quotients_close as H. rewrite forallb_forall in H.
  specialize (H _ (in_quotient_table v ltac:(lia))). cbn [fst snd] in H.
  apply orb_true_iff in H. destruct H as [H | H]; [apply Z.eqb_eq in H; lia | ].
  unfold close_quotient in H. cbn [fst snd] in H. rewrite Hq in H.
  repeat (apply andb_true_iff in H; destruct H as [H ?]).
  rewrite !Z.shiftl_mul_pow2 in * by lia.
  repeat match goal with
         | Hb : (_ <=? _) = true |- _ => apply Z.leb_le in Hb
         end.
  exists mx, ex. split; [exact Hq | ]. lia.
Qed.

Lemma rne_error (M p : Z) :
  0 <= p -> 2 * Z.abs (rne M p * 2 ^ p - M) <= 2 ^ p.
Proof.
  intros Hp.
  assert (H2 : 0 < 2 ^ p) by (apply Z.pow_pos_nonneg; lia).
  pose proof (Z.div_mod M (2 ^ p) ltac:(lia)) as Hdm.
  pose proof (Z.mod_pos_bound M (2 ^ p) H2) as Hb.
  unfold rne.
  destruct (Z.compare_spec (2 * (M mod 2 ^ p)) (2 ^ p)); [destruct (Z.even _) | | ]; nia.
Qed.

(** The index of a sample below 255, with everything the two bounds below
    use: [R / T] is the index, [X / A] the quotient, [mk = k * B] the
    mantissa of [float(k)], and [R * P] the rounded product [X * mk]. *)
Lemma index_decomposed (v k : Z) :
  1 <= v <= 254 -> 0 < k < 2 ^ 53 ->
  exists X A mk B P T R,
    to_int (SFmul prec emax (quotient v) (of_int k)) = Ok (R / T)
    /\ 0 < T /\ 0 < P /\ 1 <= B
    /\ mk = k * B /\ 2 ^ 52 <= mk < 2 ^ 53
    /\ 2 ^ 53 <= A /\ P <= A /\ P * T = A * B
    /\ 2 * Z.abs (R * P - X * mk) <= P
    /\ 2 * Z.abs (255 * X - v * A) <= 255
    /\ 256 * X <= 255 * A
    /\ 2 ^ 52 <= R.
Proof.
  intros Hv Hk.
  destruct (quotient_close v Hv) as (mx & ex & -> & Hmx & Hex & Hx1 & Hclose & Hbelow).
  destruct (of_int_pos k Hk) as (mk & ek & -> & Hmk & Hek & Hkv).
  destruct (mul_to_int mx mk ex ek Hmx Hmk Hx1 ltac:(lia) Hek)
    as (Hp & Hpx & Ht & Hr & ->).
  set (p := Zpos (digits2_pos (mx * mk)) - 53) in *.
  set (t := - (ex + ek + p)) in *.
  exists (Zpos mx), (2 ^ (- ex)), (Zpos mk), (2 ^ (- ek)), (2 ^ p), (2 ^ t),
         (rne (Zpos (mx * mk)) p).
  split; [reflexivity | ].
  split; [apply Z.pow_pos_nonneg; lia | ].
  split; [apply Z.pow_pos_nonneg; lia | ].
  split; [assert (0 < 2 ^ (- ek)) by (apply Z.pow_pos_nonneg; lia); lia | ].
  split; [exact Hkv | ]. split; [exact Hmk | ].
  split; [apply (Z.pow_le_mono_r 2 53 (- ex)); lia | ].
  split; [apply Z.pow_le_mono_r; lia | ].
  split; [rewrite <- !Z.pow_add_r by lia; f_equal; unfold t; lia | ].
  split; [rewrite <- Pos2Z.inj_mul; apply rne_error; lia | ].
  split; [exact Hclose | ]. split; [exact Hbelow | lia].
Qed.

Lemma index_near_exact (v k : Z) :
  0 <= v <= 255 -> 0 <= k < 2 ^ 53 ->
  exists i,
    to_int (SFmul prec emax (quotient v) (of_int k)) = Ok i
    /\ (v * k) / 255 - 1 <= i <= (v * k) / 255 + 1.
Proof.
  intros Hv Hk.
  destruct (Z.eq_dec v 0) as [-> | Hv0].
  { exists 0. split; [apply index_zero_l; exact Hk | ]. cbn. lia. }
  destruct (Z.eq_dec k 0) as [-> | Hk0].
  { exists 0. split; [apply index_zero_r; exact Hv | ]. rewrite Z.mul_0_r. cbn. lia. }
  destruct (Z.eq_dec v 255) as [-> | Hv255].
  { exists k. split; [apply index_255; exact Hk | ].
    rewrite Z.mul_comm, Z.div_mul by lia. lia. }
  destruct (index_decomposed v k ltac:(lia) ltac:(lia))
    as (X & A & mk & B & P & T & R & -> & HT & HP & HB & Hmk & Hmkb & HA & HPA & HPT
        & Herr & Hclose & _ & HR).
  eexists. split; [reflexivity | ].
  set (e := (v * k) / 255).
  assert (He : 255 * e <= v * k <= 255 * e + 254).
  { pose proof (Z.div_mod (v * k) 255 ltac:(lia)) as Hdm.
    pose proof (Z.mod_pos_bound (v * k) 255 ltac:(lia)) as Hb. fold e in Hdm. lia. }
  assert (HW : A <= A * B) by nia.
  assert (Hvk : v * k * (A * B) = v * A * mk) by (rewrite Hmk; ring).
  assert (HM1 : 510 * (X * mk) <= 2 * (v * A * mk) + 255 * mk).
  { assert (2 * (255 * X) <= 2 * (v * A) + 255) by lia.
    assert (2 * (255 * X) * mk <= (2 * (v * A) + 255) * mk)
      by (apply Z.mul_le_mono_nonneg_r; lia).
    lia. }
  assert (HM2 : 2 * (v * A * mk) - 255 * mk <= 510 * (X * mk)).
  { assert (2 * (v * A) - 255 <= 2 * (255 * X)) by lia.
    assert ((2 * (v * A) - 255) * mk <= 2 * (255 * X) * mk)
      by (apply Z.mul_le_mono_nonneg_r; lia).
    lia. }
  assert (Hlo : 255 * e * (A * B) <= v * A * mk).
  { rewrite <- Hvk. apply Z.mul_le_mono_nonneg_r; lia. }
  assert (Hhi : v * A * mk <= (255 * e + 254) * (A * B)).
  { rewrite <- Hvk. apply Z.mul_le_mono_nonneg_r; lia. }
  split.
  - assert ((e - 1) * T <= R); [ | apply Z.div_le_lower_bound; lia].
    apply (Z.mul_le_mono_pos_r _ _ P HP).
    replace ((e - 1) * T * P) with ((e - 1) * (A * B)) by (rewrite <- HPT; ring).
    lia.
  - assert (R < (e + 2) * T); [ | assert (R / T < e + 2) by (apply Z.div_lt_upper_bound; lia); lia].
    apply (Z.mul_lt_mono_pos_r P _ _ HP).
    replace ((e + 2) * T * P) with ((e + 2) * (A * B)) by (rewrite <- HPT; ring).
    lia.
Qed.

Lemma index_below_last (v k : Z) :
  0 <= v <= 254 -> 1 <= k < 2 ^ 53 ->
  exists i,
    to_int (SFmul prec emax (quotient v) (of_int k)) = Ok i /\ 0 <= i <= k - 1.
Proof.
  intros Hv Hk.
  destruct (Z.eq_dec v 0) as [-> | Hv0].
  { exists 0. split; [apply index_zero_l; lia | lia]. }
  destruct (index_decomposed v k ltac:(lia) ltac:(lia))
    as (X & A & mk & B & P & T & R & -> & HT & HP & HB & Hmk & Hmkb & HA & HPA & HPT
        & Herr & _ & Hbelow & HR).
  eexists. split; [reflexivity | ]. split; [apply Z.div_pos; lia | ].
  assert (R < k * T); [ | assert (R / T < k) by (apply Z.div_lt_upper_bound; lia); lia].
  apply (Z.mul_lt_mono_pos_r P _ _ HP).
  replace (k * T * P) with (mk * A)
    by (rewrite Hmk; replace (k * B * A) with (k * (A * B)) by ring; rewrite <- HPT; ring).
  assert (H256 : 256 * (X * mk) <= 255 * (mk * A)).
  { assert (256 * X * mk <= 255 * A * mk) by (apply Z.mul_le_mono_nonneg_r; lia). lia. }
  assert (HmkA : 2 ^ 52 * P <= mk * A) by nia.
  change (2 ^ 52) with 4503599627370496 in *. lia.
Qed.

(** For a palette of up to 51 characters, the default one among them, the
    index of every sample is the exact [floor (v * (n - 1) / 255)]. *)
Theorem char_index_exact_small_palette (v : Z) (chars : string) :
  0 <= v <= 255 -> 1 <= PyStr.len chars <= 51 ->
  char_index v chars = Ok (exact_index v (PyStr.len chars)).
Proof. intros Hv Hn. apply char_index_exact_upto_51; assumption. Qed.

Lemma char_index_exact_small_palette_witness :
  char_index 128 default_chars = Ok (exact_index 128 (PyStr.len default_chars)).
Proof.
  apply (char_index_exact_small_palette 128 default_chars); [lia | ].
  vm_compute. split; discriminate.
Defined.

(** For every palette and every sample the index is within one of the exact
    [floor (v * (n - 1) / 255)]: the double arithmetic of line 39 never
    moves a sample further than the neighbouring character. *)
Theorem char_index_within_one (v : Z) (chars : string) :
  0 <= v <= 255 -> palette_ok chars ->
  exists idx,
    char_index v chars = Ok idx
    /\ exact_index v (PyStr.len chars) - 1 <= idx <= exact_index v (PyStr.len chars) + 1.
Proof.
  intros Hv Hp. rewrite char_index_eq. unfold exact_index.
  apply index_near_exact; [exact Hv | unfold palette_ok in Hp; lia].
Qed.

Lemma char_index_within_one_witness :
  exists idx,
    char_index 155 upper_lower = Ok idx
    /\ exact_index 155 (PyStr.len upper_lower) - 1 <= idx
       <= exact_index 155 (PyStr.len upper_lower) + 1.
Proof.
  apply (char_index_within_one 155 upper_lower); [lia | ].
  vm_compute. split; discriminate.
Defined.

(** Only the sample 255 reaches the last character of the palette: every
    sample below 255 selects an index of at most [n - 2]. *)
Theorem last_char_only_for_255 (v : Z) (chars : string) :
  0 <= v <= 254 -> 2 <= PyStr.len chars -> palette_ok chars ->
  exists idx,
    char_index v chars = Ok idx /\ 0 <= idx <= PyStr.len chars - 2.
Proof.
  intros Hv Hn Hp. rewrite char_index_eq.
  destruct (index_below_last v (PyStr.len chars - 1) Hv) as (i & Hi & Hb).
  - unfold palette_ok in Hp. lia.
  - exists i. split; [exact Hi | lia].
Qed.

Lemma last_char_only_for_255_witness :
  exists idx,
    char_index 254 default_chars = Ok idx /\ 0 <= idx <= PyStr.len default_chars - 2.
Proof.
  apply (last_char_only_for_255 254 default_chars); [lia | | ].
  - vm_compute. discriminate.
  - vm_compute. split; discriminate.
Defined.

(** With a palette of one character every sample selects that character. *)
Theorem single_char_palette (v : Z) (chars : string) :
  0 <= v <= 255 -> PyStr.len chars = 1 ->
  exists c,
    String.get 0 chars = Some c
    /\ char_index v chars = Ok 0
    /\ select_char v chars = Ok c.
Proof.
  intros Hv Hn.
  assert (Hp : palette_ok chars) by (unfold palette_ok; rewrite Hn; cbn; lia).
  destruct (char_index_bound v chars Hv Hp) as (idx & Hidx & Hb).
  assert (idx = 0) by lia. subst idx.
  destruct (getitem_in_range chars 0 ltac:(lia)) as (c & Hg & Hi).
  exists c. unfold select_char. rewrite Hidx. cbn [bind]. auto.
Qed.

Lemma single_char_palette_witness :
  exists c,
    String.get 0 "#" = Some c
    /\ char_index 200 "#" = Ok 0
    /\ select_char 200 "#" = Ok c.
Proof. apply (single_char_palette 200 "#"); [lia | reflexivity]. Defined.
End AccuracyFacts.

(** ** What the rows hold *)

Module ContentFacts.

Import AsciiArt QuantizeFacts.

(** A loop over consecutive numbers that keeps an invariant indexed by the
    number reached. *)
Lemma for_each_seq_inv {S : Type} (P : nat -> S -> Prop)
      (body : Z -> S -> result S) (len : nat) :
  forall (a : nat) (s : S),
    (forall n s, (a <= n < a + len)%nat -> P n s ->
                 exists s', body (Z.of_nat n) s = Ok s' /\ P (Datatypes.S n) s') ->
    P a s ->
    exists s', for_each (map Z.of_nat (seq a len)) body s = Ok s' /\ P (a + len)%nat s'.
Proof.
  induction len as [ | len IH]; intros a s Hbody Hs; cbn [seq map for_each].
  - exists s. rewrite Nat.add_0_r. auto.
  - destruct (Hbody a s ltac:(lia) Hs) as (s1 & -> & Hs1). cbn [bind].
    destruct (IH (Datatypes.S a) s1) as (s' & Hrun & Hs').
    + intros n t Hn Ht. apply Hbody; [lia | exact Ht].
    + exact Hs1.
    + exists s'. split; [exact Hrun | ].
      replace (a + Datatypes.S len)%nat with (Datatypes.S a + len)%nat by lia. exact Hs'.
Qed.

Lemma pixel_step_cell (pixels : list Z) (width height : Z) (chars : string)
      (i : Z) (j : nat) (line : string) :
  grid_ok pixels width height -> palette_ok chars ->
  0 <= i < height -> 0 <= Z.of_nat j < width ->
  exists v c,
    nth_error pixels (Z.to_nat (i * width + Z.of_nat j)) = Some v
    /\ select_char v chars = Ok c
    /\ pixel_step pixels width chars i (Z.of_nat j) line = Ok (line ++ String c EmptyString).
Proof.
  intros Hg Hp Hi Hj.
  destruct (pixel_at_ok pixels width height i (Z.of_nat j) Hg Hi Hj) as (v & Hv & Hb).
  destruct (select_char_ok v chars Hb Hp) as (idx & c & _ & _ & _ & Hc).
  exists v, c. unfold pixel_step. rewrite Hv. cbn [bind]. rewrite Hc.
  split; [ | split; reflexivity].
  unfold pixel_at in Hv.
  destruct (i * width + Z.of_nat j <? 0); [discriminate | ].
  destruct (nth_error pixels _) as [v' | ]; [ | discriminate].
  injection Hv as ->. reflexivity.
Qed.

Lemma get_append_last (line : string) (c : ascii) :
  String.get (String.length line) (line ++ String c EmptyString) = Some c.
Proof. induction line as [ | a line IH]; cbn; [reflexivity | exact IH]. Qed.

Lemma get_append_before (line tail : string) (j : nat) :
  (j < String.length line)%nat ->
  String.get j (line ++ tail) = String.get j line.
Proof.
  revert j. induction line as [ | a line IH]; intros j Hj; cbn in Hj; [lia | ].
  destruct j as [ | j]; cbn; [reflexivity | apply IH; lia].
Qed.

Lemma row_step_cells (pixels : list Z) (width height : Z) (chars : string)
      (i : Z) (ascii_lines : list string) :
  grid_ok pixels width height -> palette_ok chars ->
  0 <= i < height ->
  exists line,
    row_step pixels width chars i ascii_lines = Ok (ascii_lines ++ [line])%list
    /\ String.length line = Z.to_nat width
    /\ forall j, (j < Z.to_nat width)%nat -> cell_ok pixels width chars i line j.
Proof.
  intros Hg Hp Hi.
  destruct (for_each_seq_inv
              (fun n line => String.length line = n
                             /\ forall j, (j < n)%nat -> cell_ok pixels width chars i line j)
              (pixel_step pixels width chars i) (Z.to_nat width) 0%nat "")
    as (line & Hrun & Hlen & Hcells).
  - intros n s Hn [Hs Hc].
    destruct (pixel_step_cell pixels width height chars i n s Hg Hp Hi ltac:(lia))
      as (v & c & Hv & Hsel & ->).
    eexists. split; [reflexivity | ]. split.
    + rewrite length_append, Hs. cbn. lia.
    + intros j Hj. destruct (Nat.eq_dec j n) as [-> | Hne].
      * exists v, c. split; [exact Hv | split; [exact Hsel | ]].
        rewrite <- Hs. apply get_append_last.
      * destruct (Hc j ltac:(lia)) as (v' & c' & Hv' & Hsel' & Hget').
        exists v', c'. rewrite get_append_before by lia. auto.
  - split; [reflexivity | intros j Hj; lia].
  - exists line. unfold row_step, range. rewrite Hrun. cbn [bind].
    split; [reflexivity | ]. split; [exact Hlen | exact Hcells].
Qed.

Lemma to_ascii_lines_cells (pixels : list Z) (width height : Z) (chars : string) :
  grid_ok pixels width height -> palette_ok chars ->
  exists ascii_lines,
    to_ascii_lines pixels width height chars = Ok ascii_lines
    /\ List.length ascii_lines = Z.to_nat height
    /\ forall i, (i < Z.to_nat height)%nat ->
         exists line,
           nth_error ascii_lines i = Some line
           /\ String.length line = Z.to_nat width
           /\ forall j, (j < Z.to_nat width)%nat ->
                cell_ok pixels width chars (Z.of_nat i) line j.
Proof.
  intros Hg Hp.
  destruct (for_each_seq_inv
              (fun n rows =>
                 List.length rows = n
                 /\ forall i, (i < n)%nat ->
                      exists line,
                        nth_error rows i = Some line
                        /\ String.length line = Z.to_nat width
                        /\ forall j, (j < Z.to_nat width)%nat ->
                             cell_ok pixels width chars (Z.of_nat i) line j)
              (row_step pixels width chars) (Z.to_nat height) 0%nat (@nil string))
    as (rows & Hrun & Hlen & Hrows).
  - intros n rows Hn [Hl Hr].
    destruct (row_step_cells pixels width height chars (Z.of_nat n) rows Hg Hp ltac:(lia))
      as (line & -> & Hw & Hcells).
    eexists. split; [reflexivity | ]. split.
    + rewrite length_app, Hl. cbn. lia.
    + intros i Hi. destruct (Nat.eq_dec i n) as [-> | Hne].
      * exists line. rewrite nth_error_app2 by lia.
        rewrite Hl, Nat.sub_diag. cbn. auto.
      * destruct (Hr i ltac:(lia)) as (l & Hnth & Hrest).
        exists l. rewrite nth_error_app1 by lia. auto.
  - split; [reflexivity | intros i Hi; lia].
  - exists rows. unfold to_ascii_lines, range. auto.
Qed.


Lemma get_some_lt (s : string) (j : nat) (c : ascii) :
  String.get j s = Some c -> (j < String.length s)%nat.
Proof.
  revert j. induction s as [ | a s IH]; intros j Hj; [destruct j; discriminate | ].
  destruct j as [ | j]; cbn in *; [lia | ]. apply IH in Hj. lia.
Qed.

Lemma select_char_in_palette (v : Z) (chars : string) (c : ascii) :
  select_char v chars = Ok c -> exists k, String.get k chars = Some c.
Proof.
  unfold select_char. destruct (char_index v chars) as [idx | ]; [ | discriminate].
  cbn [bind]. unfold PyStr.getitem.
  destruct (_ && _); [ | discriminate].
  destruct (String.get _ chars) as [c' | ] eqn:Hg; [ | discriminate].
  intros [= <-]. eauto.
Qed.

(** The art is the grid, sample by sample, in row-major order: the
    character at row [i], column [j] of what [image_to_ascii] returns is the
    palette character selected by [pixels[i * width + j]]. *)
Theorem image_to_ascii_cells (load : string -> Z -> Z -> result (list Z))
        (path : string) (width height : Z) (chars : string)
        (pixels : list Z) (w : world) :
  load path width height = Ok pixels ->
  grid_ok pixels width height ->
  palette_ok chars ->
  exists ascii_lines,
    image_to_ascii load path width height chars w = Done ascii_lines w
    /\ forall i j, 0 <= i < height -> 0 <= j < width ->
         exists line v c,
           nth_error ascii_lines (Z.to_nat i) = Some line
           /\ nth_error pixels (Z.to_nat (i * width + j)) = Some v
           /\ select_char v chars = Ok c
           /\ String.get (Z.to_nat j) line = Some c.
Proof.
  intros Hload Hg Hp.
  destruct (to_ascii_lines_cells pixels width height chars Hg Hp)
    as (rows & Hrows & Hlen & Hcells).
  exists rows. split.
  - unfold image_to_ascii, image_to_ascii_try. rewrite Hload. cbn [bind].
    rewrite Hrows. reflexivity.
  - intros i j Hi Hj.
    destruct (Hcells (Z.to_nat i) ltac:(lia)) as (line & Hnth & _ & Hline).
    destruct (Hline (Z.to_nat j) ltac:(lia)) as (v & c & Hv & Hsel & Hget).
    rewrite !Z2Nat.id in Hv by lia.
    exists line, v, c. auto.
Qed.

Lemma image_to_ascii_cells_witness :
  let load := fun (_ : string) (_ _ : Z) => Ok [0; 255; 128; 54; 200; 17] in
  exists ascii_lines,
    image_to_ascii load "me.png" 3 2 default_chars empty_world
    = Done ascii_lines empty_world
    /\ forall i j, 0 <= i < 2 -> 0 <= j < 3 ->
         exists line v c,
           nth_error ascii_lines (Z.to_nat i) = Some line
           /\ nth_error [0; 255; 128; 54; 200; 17] (Z.to_nat (i * 3 + j)) = Some v
           /\ select_char v default_chars = Ok c
           /\ String.get (Z.to_nat j) line = Some c.
Proof.
  intros load.
  apply (image_to_ascii_cells load "me.png" 3 2 default_chars
           [0; 255; 128; 54; 200; 17] empty_world).
  - reflexivity.
  - unfold grid_ok. cbn. repeat split; try lia. repeat constructor; lia.
  - unfold palette_ok. vm_compute. split; discriminate.
Defined.

(** The art holds no character from outside the palette. *)
Theorem rows_use_palette_only (load : string -> Z -> Z -> result (list Z))
        (path : string) (width height : Z) (chars : string)
        (pixels : list Z) (w : world) :
  load path width height = Ok pixels ->
  grid_ok pixels width height ->
  palette_ok chars ->
  exists ascii_lines,
    image_to_ascii load path width height chars w = Done ascii_lines w
    /\ forall line j c,
         In line ascii_lines -> String.get j line = Some c ->
         exists k, String.get k chars = Some c.
Proof.
  intros Hload Hg Hp.
  destruct (to_ascii_lines_cells pixels width height chars Hg Hp)
    as (rows & Hrows & Hlen & Hcells).
  exists rows. split.
  - unfold image_to_ascii, image_to_ascii_try. rewrite Hload. cbn [bind].
    rewrite Hrows. reflexivity.
  - intros line j c Hin Hget.
    destruct (In_nth_error rows line Hin) as (i & Hi).
    assert (Hilt : (i < Z.to_nat height)%nat).
    { rewrite <- Hlen. apply nth_error_Some. rewrite Hi. discriminate. }
    destruct (Hcells i Hilt) as (line' & Hnth & Hw & Hline).
    rewrite Hi in Hnth. injection Hnth as <-.
    pose proof (get_some_lt line j c Hget) as Hj.
    destruct (Hline j ltac:(lia)) as (v & c' & _ & Hsel & Hget').
    rewrite Hget in Hget'. injection Hget' as <-.
    exact (select_char_in_palette v chars c Hsel).
Qed.

Lemma rows_use_palette_only_witness :
  let load := fun (_ : string) (_ _ : Z) => Ok [0; 255; 128; 54] in
  exists ascii_lines,
    image_to_ascii load "me.png" 2 2 default_chars empty_world
    = Done ascii_lines empty_world
    /\ forall line j c,
         In line ascii_lines -> String.get j line = Some c ->
         exists k, String.get k default_chars = Some c.
Proof.
  intros load.
  apply (rows_use_palette_only load "me.png" 2 2 default_chars [0; 255; 128; 54] empty_world).
  - reflexivity.
  - unfold grid_ok. cbn. repeat split; try lia. repeat constructor; lia.
  - unfold palette_ok. vm_compute. split; discriminate.
Defined.
End ContentFacts.

(** ** More on escaping and on the fragment *)

Module EscapeFacts.

Import AsciiArt SvgFacts.

Lemma escape_cons (c : ascii) (rest : string) :
  escape (String c rest) = escape_char c ++ escape rest.
Proof.
  change (String c rest) with (String c "" ++ rest).
  rewrite escape_app, escape_one. reflexivity.
Qed.

Lemma escape_char_cases (c : ascii) :
  (c = "&"%char /\ escape_char c = "&amp;")
  \/ (c = "<"%char /\ escape_char c = "&lt;")
  \/ (c = ">"%char /\ escape_char c = "&gt;")
  \/ (c <> "&"%char /\ c <> "<"%char /\ c <> ">"%char
      /\ escape_char c = String c EmptyString).
Proof.
  unfold escape_char.
  destruct (Ascii.eqb_spec c "&"); [auto | ].
  destruct (Ascii.eqb_spec c "<"); [auto | ].
  destruct (Ascii.eqb_spec c ">"); [auto | ].
  right. right. right. auto.
Qed.

Lemma count_char_cons_ne (a c : ascii) (s : string) :
  c <> a -> count_char a (String c s) = count_char a s.
Proof.
  intros Hne. cbn [count_char].
  destruct (Ascii.eqb_spec c a); [contradiction | reflexivity].
Qed.

(** Escaping lengthens a row by four characters for every [&] and by three
    for every [<] and every [>], and by nothing else. *)
Theorem escape_length (row : string) :
  String.length (escape row)
  = (String.length row + 4 * count_char "&" row
     + 3 * count_char "<" row + 3 * count_char ">" row)%nat.
Proof.
  induction row as [ | c rest IH]; [reflexivity | ].
  rewrite escape_cons, QuantizeFacts.length_append, IH.
  destruct (escape_char_cases c) as [[-> ->] | [[-> ->] | [[-> ->] | (H1 & H2 & H3 & ->)]]].
  - cbn. lia.
  - cbn. lia.
  - cbn. lia.
  - rewrite !count_char_cons_ne by assumption. cbn. lia.
Qed.

Lemma escape_grows (row : string) :
  (String.length row + reserved row <= String.length (escape row))%nat.
Proof.
  unfold reserved. induction row as [ | c rest IH]; [cbn; lia | ].
  rewrite escape_cons, QuantizeFacts.length_append.
  destruct (escape_char_cases c) as [[-> ->] | [[-> ->] | [[-> ->] | (H1 & H2 & H3 & ->)]]];
    try (cbn in *; lia).
  rewrite !count_char_cons_ne by assumption. cbn in *. lia.
Qed.

Lemma escape_unreserved (row : string) :
  reserved row = 0%nat -> escape row = row.
Proof.
  unfold reserved. induction row as [ | c rest IH]; intros H; [reflexivity | ].
  rewrite escape_cons.
  destruct (escape_char_cases c) as [[-> _] | [[-> _] | [[-> _] | (H1 & H2 & H3 & ->)]]];
    try (cbn in H; lia).
  rewrite !count_char_cons_ne in H by assumption.
  rewrite IH by exact H. reflexivity.
Qed.

(** A row is its own escape exactly when it holds none of [&], [<], [>]. *)
Theorem escape_identity_iff (row : string) :
  escape row = row <-> reserved row = 0%nat.
Proof.
  split; [ | apply escape_unreserved].
  intros H. pose proof (escape_grows row) as Hl. rewrite H in Hl. lia.
Qed.

(** An escaped row holds no angle bracket. *)
Theorem escape_no_angle (row : string) :
  count_char "<" (escape row) = 0%nat /\ count_char ">" (escape row) = 0%nat.
Proof.
  split; [apply escape_no_lt | ].
  induction row as [ | c rest IH]; [reflexivity | ].
  rewrite escape_cons, count_char_app, IH.
  destruct (escape_char_cases c) as [[-> ->] | [[-> ->] | [[-> ->] | (H1 & H2 & H3 & ->)]]];
    try reflexivity.
  rewrite count_char_cons_ne by assumption. reflexivity.
Qed.

(** In an escaped row every [&] opens one of the three entities: there are
    as many as there were reserved characters in the row. *)
Theorem escape_ampersands (row : string) :
  count_char "&" (escape row) = reserved row.
Proof.
  unfold reserved.
  induction row as [ | c rest IH]; [reflexivity | ].
  rewrite escape_cons, count_char_app, IH.
  destruct (escape_char_cases c) as [[-> ->] | [[-> ->] | [[-> ->] | (H1 & H2 & H3 & ->)]]].
  - cbn. lia.
  - cbn. lia.
  - cbn. lia.
  - rewrite !count_char_cons_ne by assumption. cbn.
    destruct (Ascii.eqb_spec c "&"); [contradiction | ]. lia.
Qed.

Lemma append_cancel_l (p s1 s2 : string) : p ++ s1 = p ++ s2 -> s1 = s2.
Proof.
  induction p as [ | a p IH]; cbn; [auto | ]. intros [= H]. auto.
Qed.

(** Escaping loses nothing: two rows with the same escape are the same row. *)
Theorem escape_injective (row1 row2 : string) :
  escape row1 = escape row2 -> row1 = row2.
Proof.
  revert row2. induction row1 as [ | c1 rest1 IH]; intros row2 H.
  - destruct row2 as [ | c2 rest2]; [reflexivity | ].
    rewrite escape_cons in H.
    destruct (escape_char_cases c2) as [[_ E] | [[_ E] | [[_ E] | (_ & _ & _ & E)]]];
      rewrite E in H; discriminate H.
  - destruct row2 as [ | c2 rest2].
    + rewrite escape_cons in H.
      destruct (escape_char_cases c1) as [[_ E] | [[_ E] | [[_ E] | (_ & _ & _ & E)]]];
        rewrite E in H; discriminate H.
    + rewrite !escape_cons in H.
      destruct (escape_char_cases c1) as [[-> E1] | [[-> E1] | [[-> E1] | (A1 & B1 & C1 & E1)]]];
        destruct (escape_char_cases c2) as [[-> E2] | [[-> E2] | [[-> E2] | (A2 & B2 & C2 & E2)]]];
        rewrite ?E1, ?E2 in H;
        try discriminate H;
        try (apply append_cancel_l in H; apply IH in H; subst; reflexivity);
        try (cbn in H; injection H as Hc Hr; congruence).
      cbn in H. injection H as Hc Hr. subst. f_equal. apply IH. exact Hr.
Qed.

Lemma escape_injective_witness : "a<b" = "a<b".
Proof. apply (escape_injective "a<b" "a<b"). reflexivity. Defined.


(** *** The fragment of an art in two parts *)

Lemma elements_from_app (x y_start line_height i : Z) (art1 art2 : list string) :
  elements_from x y_start line_height i (art1 ++ art2)
  = (elements_from x y_start line_height i art1
     ++ elements_from x y_start line_height (i + Z.of_nat (List.length art1)) art2)%list.
Proof.
  revert i. induction art1 as [ | row rest IH]; intros i.
  - cbn. rewrite Z.add_0_r. reflexivity.
  - cbn [app elements_from List.length]. rewrite IH. cbn [app]. do 3 f_equal. lia.
Qed.

Lemma elements_from_shift (x y_start line_height i n : Z) (art : list string) :
  elements_from x y_start line_height (i + n) art
  = elements_from x (y_start + n * line_height) line_height i art.
Proof.
  revert i. induction art as [ | row rest IH]; intros i; [reflexivity | ].
  cbn [elements_from]. replace (i + n + 1) with (i + 1 + n) by lia. rewrite IH.
  f_equal. f_equal. lia.
Qed.

Lemma join_app (sep : string) (l1 l2 : list string) :
  l1 <> [] -> l2 <> [] ->
  PyStr.join sep (l1 ++ l2) = PyStr.join sep l1 ++ sep ++ PyStr.join sep l2.
Proof.
  unfold PyStr.join. intros H1 H2.
  induction l1 as [ | a l1 IH]; [contradiction | ].
  destruct l1 as [ | b l1].
  - cbn [app String.concat]. destruct l2; [contradiction | reflexivity].
  - change ((a :: b :: l1) ++ l2)%list with (a :: (b :: l1) ++ l2)%list.
    cbn [String.concat app]. cbn [String.concat app] in IH.
    rewrite IH by discriminate. rewrite !append_assoc. reflexivity.
Qed.

(** The fragment of an art is the fragment of its upper rows, a newline, and
    the fragment of the remaining rows started at the [y] the upper part
    ended on. *)
Theorem format_for_svg_app (art1 art2 : list string) (x y_start line_height : Z) :
  art1 <> [] -> art2 <> [] ->
  format_for_svg (art1 ++ art2) x y_start line_height
  = format_for_svg art1 x y_start line_height
      ++ PyStr.newline
      ++ format_for_svg art2 x
           (y_start + Z.of_nat (List.length art1) * line_height) line_height.
Proof.
  intros H1 H2. unfold format_for_svg. rewrite !svg_loop_acc. cbn [app].
  rewrite elements_from_app, Z.add_0_l.
  rewrite <- (Z.add_0_l (Z.of_nat (List.length art1))) at 1.
  rewrite elements_from_shift.
  apply join_app.
  - destruct art1; [contradiction | discriminate].
  - destruct art2; [contradiction | discriminate].
Qed.

Lemma format_for_svg_app_witness :
  format_for_svg (["@@"; "a<"] ++ ["  "]) 15 30 20
  = format_for_svg ["@@"; "a<"] 15 30 20
      ++ PyStr.newline
      ++ format_for_svg ["  "] 15 (30 + Z.of_nat (List.length ["@@"; "a<"]) * 20) 20.
Proof. apply (format_for_svg_app ["@@"; "a<"] ["  "] 15 30 20); discriminate. Defined.

End EscapeFacts.

(** ** What the process writes *)

Module OutputFacts.

Import AsciiArt QuantizeFacts SvgFacts ProcessFacts ContentFacts EscapeFacts.


Lemma count_zero_get (a : ascii) (s : string) (k : nat) (c : ascii) :
  count_char a s = 0%nat -> String.get k s = Some c -> c <> a.
Proof.
  revert k. induction s as [ | b s IH]; intros k Hz Hg; [destruct k; discriminate | ].
  cbn [count_char] in Hz.
  destruct k as [ | k]; cbn in Hg.
  - injection Hg as ->. intros ->. rewrite Ascii.eqb_refl in Hz. lia.
  - apply (IH k); [lia | exact Hg].
Qed.

Lemma count_zero_of_get (a : ascii) (s : string) :
  (forall j c, String.get j s = Some c -> c <> a) -> count_char a s = 0%nat.
Proof.
  induction s as [ | b s IH]; intros H; [reflexivity | ].
  cbn [count_char].
  destruct (Ascii.eqb_spec b a) as [-> | _].
  - exfalso. exact (H 0%nat a eq_refl eq_refl).
  - apply IH. intros j c Hj. exact (H (S j) c Hj).
Qed.

Lemma lines_text_shape (art : list string) (n : nat) :
  Forall (fun line => String.length line = n
                      /\ count_char "010" line = 0%nat) art ->
  String.length (lines_text art) = (List.length art * (n + 1))%nat
  /\ count_char "010" (lines_text art) = List.length art.
Proof.
  induction 1 as [ | line rest [Hl Hc] _ [IHl IHc]]; [split; reflexivity | ].
  cbn [lines_text List.length].
  rewrite !length_append, !count_char_app, IHl, IHc, Hl, Hc. cbn. lia.
Qed.

(** In text format, with a palette that holds no newline, stdout is exactly
    [height] lines: [height] newline characters and
    [height * (width + 1)] characters in all. *)
Theorem text_output_shape (load : string -> Z -> Z -> result (list Z))
        (a : args) (pixels : list Z) :
  load (image_path a) (width a) (height a) = Ok pixels ->
  grid_ok pixels (width a) (height a) ->
  palette_ok (chars a) ->
  count_char "010" (chars a) = 0%nat ->
  fmt a = text ->
  exists out,
    main load a empty_world = Done tt {| stdout := out; stderr := "" |}
    /\ count_char "010" out = Z.to_nat (height a)
    /\ String.length out = (Z.to_nat (height a) * (Z.to_nat (width a) + 1))%nat.
Proof.
  intros Hload Hg Hp Hnl Hfmt.
  destruct (to_ascii_lines_cells pixels _ _ _ Hg Hp) as (rows & Hrows & Hlen & Hcells).
  assert (Hall : Forall (fun line => String.length line = Z.to_nat (width a)
                                     /\ count_char "010" line = 0%nat) rows).
  { apply Forall_forall. intros line Hin.
    destruct (In_nth_error rows line Hin) as (i & Hi).
    assert (Hilt : (i < Z.to_nat (height a))%nat).
    { rewrite <- Hlen. apply nth_error_Some. rewrite Hi. discriminate. }
    destruct (Hcells i Hilt) as (line' & Hnth & Hw & Hline).
    rewrite Hi in Hnth. injection Hnth as <-.
    split; [exact Hw | ].
    apply count_zero_of_get. intros j c Hget.
    pose proof (get_some_lt line j c Hget) as Hj.
    destruct (Hline j ltac:(lia)) as (v & c' & _ & Hsel & Hget').
    rewrite Hget in Hget'. injection Hget' as <-.
    destruct (select_char_in_palette v (chars a) c Hsel) as (k & Hk).
    exact (count_zero_get _ _ k c Hnl Hk). }
  destruct (lines_text_shape rows _ Hall) as [Hl Hc].
  exists (lines_text rows).
  split; [ | split; [rewrite Hc; exact Hlen | rewrite Hl, Hlen; reflexivity]].
  unfold main, image_to_ascii, image_to_ascii_try.
  rewrite Hload. cbn [bind]. rewrite Hrows, Hfmt, print_lines_spec. reflexivity.
Qed.

Lemma text_output_shape_witness :
  let load := fun (_ : string) (_ _ : Z) => Ok [0; 255; 128; 54; 200; 17] in
  let a := {| image_path := "me.png"; width := 3; height := 2;
              chars := default_chars; fmt := text;
              x := 15; y_start := 30; line_height := 20 |} in
  exists out,
    main load a empty_world = Done tt {| stdout := out; stderr := "" |}
    /\ count_char "010" out = Z.to_nat (height a)
    /\ String.length out = (Z.to_nat (height a) * (Z.to_nat (width a) + 1))%nat.
Proof.
  intros load a.
  apply (text_output_shape load a [0; 255; 128; 54; 200; 17]).
  - reflexivity.
  - unfold grid_ok. cbn. repeat split; try lia. repeat constructor; lia.
  - unfold palette_ok. vm_compute. split; discriminate.
  - reflexivity.
  - reflexivity.
Defined.


(** With a palette that holds none of [&], [<], [>], as the default one,
    escaping changes no row of the art: the elements of the fragment carry
    the rows as they are. *)
Theorem plain_palette_needs_no_escape (load : string -> Z -> Z -> result (list Z))
        (path : string) (width height : Z) (chars : string)
        (pixels : list Z) (w : world) :
  load path width height = Ok pixels ->
  grid_ok pixels width height ->
  palette_ok chars ->
  reserved chars = 0%nat ->
  exists ascii_lines,
    image_to_ascii load path width height chars w = Done ascii_lines w
    /\ Forall (fun line => escape line = line) ascii_lines.
Proof.
  intros Hload Hg Hp Hres.
  destruct (to_ascii_lines_cells pixels _ _ _ Hg Hp) as (rows & Hrows & Hlen & Hcells).
  exists rows. split.
  - unfold image_to_ascii, image_to_ascii_try. rewrite Hload. cbn [bind].
    rewrite Hrows. reflexivity.
  - apply Forall_forall. intros line Hin.
    destruct (In_nth_error rows line Hin) as (i & Hi).
    assert (Hilt : (i < Z.to_nat height)%nat).
    { rewrite <- Hlen. apply nth_error_Some. rewrite Hi. discriminate. }
    destruct (Hcells i Hilt) as (line' & Hnth & Hw & Hline).
    rewrite Hi in Hnth. injection Hnth as <-.
    apply escape_unreserved. unfold reserved in *.
    assert (Hfree : forall a, count_char a chars = 0%nat -> count_char a line = 0%nat).
    { intros a Ha. apply count_zero_of_get. intros j c Hget.
      pose proof (get_some_lt line j c Hget) as Hj.
      destruct (Hline j ltac:(lia)) as (v & c' & _ & Hsel & Hget').
      rewrite Hget in Hget'. injection Hget' as <-.
      destruct (select_char_in_palette v chars c Hsel) as (k & Hk).
      exact (count_zero_get _ _ k c Ha Hk). }
    rewrite !Hfree by lia. reflexivity.
Qed.

Lemma plain_palette_needs_no_escape_witness :
  let load := fun (_ : string) (_ _ : Z) => Ok [0; 255; 128; 54] in
  exists ascii_lines,
    image_to_ascii load "me.png" 2 2 default_chars empty_world
    = Done ascii_lines empty_world
    /\ Forall (fun line => escape line = line) ascii_lines.
Proof.
  intros load.
  apply (plain_palette_needs_no_escape load "me.png" 2 2 default_chars
           [0; 255; 128; 54] empty_world).
  - reflexivity.
  - unfold grid_ok. cbn. repeat split; try lia. repeat constructor; lia.
  - unfold palette_ok. vm_compute. split; discriminate.
  - reflexivity.
Defined.

End OutputFacts.


